(** * A shallow embedding of the Hack assembler [hack-assemble.py]

    The Python class [Assembler] keeps its whole state in five
    attributes and its constructor runs five methods in sequence.  The
    state becomes the record [Asm]; each method becomes a function on it.
    Python exceptions ([KeyError] of a table lookup, [ValueError] of
    [int]) are the [None] of an [option].  Dicts mutated by the code
    ([labels], [variables]) are stdpp [gmap]s keyed by strings; the static
    encoding tables are the dict literals, as association lists. *)

From Stdlib Require Import Strings.String Strings.Ascii NArith.
From stdpp Require Import base gmap strings list sorting.

Open Scope string_scope.

(* ------------------------------------------------------------------- *)
(** ** Python string primitives used by the source *)

(** [c.isspace()] on an ASCII character, as used by [str.split()]:
    tab, newline, vertical tab, form feed, carriage return, the four
    information separators 0x1c-0x1f, and space. *)
Definition py_isspace (c : ascii) : bool :=
  let n := nat_of_ascii c in
  (((9 <=? n) && (n <=? 13)) || ((28 <=? n) && (n <=? 32)))%nat.

(** ["".join(line.split())]: every whitespace character removed. *)
Fixpoint join_split (s : string) : string :=
  match s with
  | EmptyString => EmptyString
  | String c s' => if py_isspace c then join_split s' else String c (join_split s')
  end.

(** [s.find(p)]: the first index of [p], [None] standing for [-1]. *)
Definition py_find (p s : string) : option nat := index 0 p s.

(** Slicing with non-negative bounds: [s[a:b]] and [s[a:]]. *)
Definition py_slice (s : string) (a b : nat) : string := substring a (b - a) s.
Definition py_slice_from (s : string) (a : nat) : string :=
  substring a (String.length s - a) s.

(** [s[1:-1]] *)
Definition py_strip_ends (s : string) : string :=
  py_slice s 1 (String.length s - 1).

(** [s.startswith(c)] for a one-character prefix. *)
Definition py_startswith (c : ascii) (s : string) : bool :=
  match s with
  | String c' _ => if Ascii.ascii_dec c c' then true else false
  | EmptyString => false
  end.

Definition is_digit (c : ascii) : bool :=
  let n := nat_of_ascii c in ((48 <=? n) && (n <=? 57))%nat.

Fixpoint all_digits (s : string) : bool :=
  match s with
  | EmptyString => true
  | String c s' => is_digit c && all_digits s'
  end.

(** [s.isdigit()] on ASCII text: non-empty and made of decimal digits
    (Python 3 also counts Unicode digits, see [all_ascii]). *)
Definition py_isdigit (s : string) : bool :=
  match s with
  | EmptyString => false
  | _ => all_digits s
  end.

Fixpoint decimal_value (acc : N) (s : string) : N :=
  match s with
  | EmptyString => acc
  | String c s' => decimal_value (10 * acc + N.of_nat (nat_of_ascii c - 48)%nat)%N s'
  end.

(** [int(s)] on a string.  The strings that reach [int] in this program
    are digit strings (literal operands) or the digit strings of the
    predefined table; any other string raises ([None]). *)
Definition py_int_str (s : string) : option N :=
  if py_isdigit s then Some (decimal_value 0 s) else None.

(** Values stored in [self.variables]: the predefined table holds
    strings (["0"], ["16384"], ...), the variable pass stores ints. *)
Inductive pyval := PyStr (s : string) | PyInt (n : N).

(** [int(v)] on a dict value. *)
Definition py_int (v : pyval) : option N :=
  match v with
  | PyStr s => py_int_str s
  | PyInt n => Some n
  end.

(** Binary digits of [format(i, "b")], most significant first. *)
Fixpoint pos_bin (p : positive) (acc : string) : string :=
  match p with
  | xH => String "1" acc
  | xO p' => pos_bin p' (String "0" acc)
  | xI p' => pos_bin p' (String "1" acc)
  end.

Definition bin_digits (i : N) : string :=
  match i with
  | N0 => "0"
  | Npos p => pos_bin p EmptyString
  end.

Fixpoint zeros (k : nat) : string :=
  match k with
  | O => EmptyString
  | S k' => String "0" (zeros k')
  end.

(** [format(i, "#0<w>b")] for [i >= 0]: the prefix ["0b"], then the
    digits zero-padded so that the whole string has width [w]; a wider
    numeral is never cut. *)
Definition py_format_bin_alt (w : nat) (i : N) : string :=
  let d := bin_digits i in
  "0b" ++ zeros (w - 2 - String.length d)%nat ++ d.

(** A dict literal lookup [table[k]]; a missing key raises [KeyError]. *)
Fixpoint dict_get {K V} `{EqDecision K} (t : list (K * V)) (k : K) : option V :=
  match t with
  | [] => None
  | (k', v) :: t' => if decide (k = k') then Some v else dict_get t' k
  end.

(* ------------------------------------------------------------------- *)
(** ** The static tables of [Assembler] *)

Definition comp_table : list (option string * string) := [
  (Some "0",   "0101010"); (Some "1",   "0111111"); (Some "-1",  "0111010");
  (Some "D",   "0001100"); (Some "A",   "0110000"); (Some "M",   "1110000");
  (Some "!D",  "0001101"); (Some "!A",  "0110001"); (Some "!M",  "1110001");
  (Some "-D",  "0001111"); (Some "-A",  "0110011"); (Some "-M",  "1110011");
  (Some "D+1", "0011111"); (Some "A+1", "0110111"); (Some "M+1", "1110111");
  (Some "D-1", "0001110"); (Some "A-1", "0110010"); (Some "M-1", "1110010");
  (Some "D+A", "0000010"); (Some "D+M", "1000010"); (Some "D-A", "0010011");
  (Some "D-M", "1010011"); (Some "A-D", "0000111"); (Some "M-D", "1000111");
  (Some "D&A", "0000000"); (Some "D&M", "1000000"); (Some "D|A", "0010101");
  (Some "D|M", "1010101"); (None,      "0000000")].

Definition jump_table : list (option string * string) := [
  (None,       "000"); (Some "JGT", "001"); (Some "JEQ", "010"); (Some "JGE", "011");
  (Some "JLT", "100"); (Some "JNE", "101"); (Some "JLE", "110"); (Some "JMP", "111")].

Definition dest_table : list (option string * string) := [
  (None,       "000"); (Some "M",   "001"); (Some "D",   "010"); (Some "MD",  "011");
  (Some "A",   "100"); (Some "AM",  "101"); (Some "AD",  "110"); (Some "ADM", "111")].

Definition predefined_symbols : list (string * pyval) := [
  ("R0",  PyStr "0"); ("R1",  PyStr "1"); ("R2",  PyStr "2"); ("R3",  PyStr "3");
  ("R4",  PyStr "4"); ("R5",  PyStr "5"); ("R6",  PyStr "6"); ("R7",  PyStr "7");
  ("R8",  PyStr "8"); ("R9",  PyStr "9"); ("R10", PyStr "10"); ("R11", PyStr "11");
  ("R12", PyStr "12"); ("R13", PyStr "13"); ("R14", PyStr "14"); ("R15", PyStr "15");
  ("SCREEN", PyStr "16384"); ("KBD", PyStr "24576"); ("SP", PyStr "0");
  ("LCL", PyStr "1"); ("ARG", PyStr "2"); ("THIS", PyStr "3"); ("THAT", PyStr "4")].

(* ------------------------------------------------------------------- *)
(** ** Intermediate instructions and the assembler state *)

(** [{"type": "A", "address": n}] and
    [{"type": "C", "dest": d, "comp": c, "jump": j}] ([None] is Python's
    [None]). *)
Inductive instr :=
| InsA (address : N)
| InsC (dest : option string) (comp : string) (jump : option string).

Record Asm := mkAsm {
  assembly_code : list string;
  intermediary_code : list instr;
  machine_code : list string;
  labels : gmap string N;
  variables : gmap string pyval
}.

(* ------------------------------------------------------------------- *)
(** ** The methods of [Assembler] *)

(** [remove_unnecessary]: the body of its loop on one line ... *)
Definition strip_line (line : string) : string :=
  let stripped := join_split line in
  match py_find "//" stripped with
  | Some comment_start => py_slice stripped 0 comment_start
  | None => stripped
  end.

(** ... and the loop, appending the lines that are not empty. *)
Definition remove_unnecessary (st : Asm) : Asm :=
  let assembly :=
    fold_left (fun acc line =>
      let stripped := strip_line line in
      if String.eqb stripped "" then acc else (acc ++ [stripped])%list)
      (assembly_code st) [] in
  mkAsm assembly (intermediary_code st) (machine_code st) (labels st) (variables st).

(** The [enumerate] loop of [find_labels]: [index] is the position in
    the list, [cur] is [cur_instruction]. *)
Fixpoint find_labels_loop (index : nat) (cur : N) (lines : list string)
    (lbls : gmap string N) (label_indexes : list nat) : gmap string N * list nat :=
  match lines with
  | [] => (lbls, label_indexes)
  | line :: rest =>
      if py_startswith "(" line then
        find_labels_loop (S index) cur rest
          (<[py_strip_ends line := cur]> lbls) ((label_indexes ++ [index])%list)
      else find_labels_loop (S index) (cur + 1)%N rest lbls label_indexes
  end.

(** The order of [sorted(..., reverse=True)]. *)
Definition rev_order : relation nat := fun x y => y <= x.
#[global] Instance rev_order_dec : RelDecision rev_order.
Proof. unfold rev_order. intros x y. apply _. Defined.

Definition find_labels (st : Asm) : Asm :=
  let '(lbls, label_indexes) := find_labels_loop 0 0%N (assembly_code st) (labels st) [] in
  let code := fold_left (fun code i => delete i code)
                (merge_sort rev_order label_indexes) (assembly_code st) in
  mkAsm code (intermediary_code st) (machine_code st) lbls (variables st).

(** The loop of [find_variables]. *)
Fixpoint find_variables_loop (lbls : gmap string N) (next_address : N)
    (lines : list string) (vars : gmap string pyval) : gmap string pyval :=
  match lines with
  | [] => vars
  | line :: rest =>
      if negb (py_startswith "@" line) then find_variables_loop lbls next_address rest vars
      else
        let symbol := py_slice_from line 1 in
        if py_isdigit symbol then find_variables_loop lbls next_address rest vars
        else match vars !! symbol, lbls !! symbol with
             | None, None =>
                 find_variables_loop lbls (next_address + 1)%N rest
                   (<[symbol := PyInt next_address]> vars)
             | _, _ => find_variables_loop lbls next_address rest vars
             end
  end.

Definition find_variables (st : Asm) : Asm :=
  mkAsm (assembly_code st) (intermediary_code st) (machine_code st) (labels st)
    (find_variables_loop (labels st) 16%N (assembly_code st) (variables st)).

(** [str.find] as the code reads it, [-1] when absent. *)
Definition py_find_z (p s : string) : Z :=
  match py_find p s with Some i => Z.of_nat i | None => (-1)%Z end.

(** The body of the loop of [build_intermediary] on one line:
    [None] when it raises, [Some None] when no branch appends,
    [Some (Some ins)] when [ins] is appended. *)
Definition parse_line (lbls : gmap string N) (vars : gmap string pyval)
    (line : string) : option (option instr) :=
  if py_startswith "@" line then
    let address := py_slice_from line 1 in
    let v := match vars !! address with
             | Some v => v
             | None => match lbls !! address with
                       | Some n => PyInt n
                       | None => PyStr address
                       end
             end in
    n ← py_int v; Some (Some (InsA n))
  else
    let dest_idx := py_find_z "=" line in
    let jump_idx := py_find_z ";" line in
    if (dest_idx =? -1)%Z && (jump_idx =? -1)%Z then
      Some (Some (InsC None line None))
    else if negb (dest_idx =? -1)%Z && (jump_idx =? -1)%Z then
      Some (Some (InsC (Some (py_slice line 0 (Z.to_nat dest_idx)))
                       (py_slice_from line (Z.to_nat dest_idx + 1)) None))
    else if (dest_idx =? -1)%Z && negb (jump_idx =? -1)%Z then
      Some (Some (InsC None (py_slice line 0 (Z.to_nat jump_idx))
                       (Some (py_slice_from line (Z.to_nat jump_idx + 1)))))
    else if negb (dest_idx =? -1)%Z && negb (jump_idx =? -1)%Z then
      Some (Some (InsC (Some (py_slice line 0 (Z.to_nat dest_idx)))
                       (py_slice line (Z.to_nat dest_idx + 1) (Z.to_nat jump_idx))
                       (Some (py_slice_from line (Z.to_nat jump_idx + 1)))))
    else Some None.

Fixpoint build_intermediary_loop (lbls : gmap string N) (vars : gmap string pyval)
    (lines : list string) (acc : list instr) : option (list instr) :=
  match lines with
  | [] => Some acc
  | line :: rest =>
      match parse_line lbls vars line with
      | None => None
      | Some None => build_intermediary_loop lbls vars rest acc
      | Some (Some ins) => build_intermediary_loop lbls vars rest ((acc ++ [ins])%list)
      end
  end.

Definition build_intermediary (st : Asm) : option Asm :=
  intermediary ← build_intermediary_loop (labels st) (variables st) (assembly_code st) [];
  Some (mkAsm (assembly_code st) intermediary (machine_code st) (labels st) (variables st)).

Definition get_binary_string (i : N) (n : nat) : string :=
  py_slice_from (py_format_bin_alt (n + 2) i) 2.

(** The body of the loop of [assemble] on one instruction. *)
Definition assemble_ins (ins : instr) : option string :=
  match ins with
  | InsA address => Some ("0" ++ get_binary_string address 15)
  | InsC d c j =>
      dest ← dict_get dest_table d;
      comp ← dict_get comp_table (Some c);
      jump ← dict_get jump_table j;
      Some ("111" ++ comp ++ dest ++ jump)
  end.

Fixpoint assemble_loop (ins : list instr) (acc : list string) : option (list string) :=
  match ins with
  | [] => Some acc
  | i :: rest =>
      line ← assemble_ins i;
      assemble_loop rest ((acc ++ [line])%list)
  end.

Definition assemble (st : Asm) : option Asm :=
  assembled ← assemble_loop (intermediary_code st) [];
  Some (mkAsm (assembly_code st) (intermediary_code st) assembled (labels st) (variables st)).

(** The attributes set by [__init__] before its first method call. *)
Definition initial_state (predef : list (string * pyval)) (code : list string) : Asm :=
  mkAsm code [] [] ∅ (list_to_map predef).

(** The state after the three symbol passes of [__init__]. *)
Definition after_symbols (predef : list (string * pyval)) (code : list string) : Asm :=
  find_variables (find_labels (remove_unnecessary (initial_state predef code))).

(** [Assembler(code)], with the table [variables] is seeded from. *)
Definition Assembler_with (predef : list (string * pyval)) (code : list string) : option Asm :=
  st ← build_intermediary (after_symbols predef code);
  assemble st.

Definition Assembler (code : list string) : option Asm :=
  Assembler_with predefined_symbols code.

Definition get_machine_code (st : Asm) : string :=
  String.concat (String "010" EmptyString) (machine_code st).

(** The text the program prints, [None] when the run raises. *)
Definition hack_output (code : list string) : option string :=
  get_machine_code <$> Assembler code.

(* ------------------------------------------------------------------- *)
(** ** Notions the properties are stated with *)

(** Characters ['0'] / ['1'], and the value of a most-significant-first
    binary numeral. *)
Definition is_bit (c : ascii) : bool :=
  if Ascii.ascii_dec c "0" then true else if Ascii.ascii_dec c "1" then true else false.

Fixpoint is_bits (s : string) : bool :=
  match s with
  | EmptyString => true
  | String c s' => is_bit c && is_bits s'
  end.

Fixpoint bits_value_from (acc : N) (s : string) : N :=
  match s with
  | EmptyString => acc
  | String c s' =>
      bits_value_from (2 * acc + if Ascii.ascii_dec c "1" then 1 else 0)%N s'
  end.

Definition bits_value (s : string) : N := bits_value_from 0%N s.

Fixpoint pow2 (k : nat) : N :=
  match k with
  | O => 1%N
  | S k' => (2 * pow2 k')%N
  end.

(** Every code of an encoding table has [w] characters ['0'] / ['1']. *)
Definition table_widths (w : nat) (t : list (option string * string)) : Prop :=
  Forall (fun kv => String.length kv.2 = w /\ is_bits kv.2 = true) t.

(** Occurrences of a character, and the four statement shapes of a
    compute instruction: [comp], [dest=comp], [comp;jump] and
    [dest=comp;jump] (each separator at most once, ['='] first). *)
Fixpoint count_char (c : ascii) (s : string) : nat :=
  match s with
  | EmptyString => 0
  | String c' s' => (if Ascii.ascii_dec c c' then 1 else 0) + count_char c s'
  end.

Definition matches_shape (line : string) : bool :=
  let ne := count_char "=" line in
  let nj := count_char ";" line in
  match ne, nj with
  | 0, 0 => true
  | 1, 0 => true
  | 0, 1 => true
  | 1, 1 =>
      match py_find "=" line, py_find ";" line with
      | Some d, Some j => d <? j
      | _, _ => false
      end
  | _, _ => false
  end%nat.

(** Label declarations as the label pass recognises them. *)
Definition is_label_line (line : string) : bool := py_startswith "(" line.

Definition count_nonlabel (lines : list string) : nat :=
  length (filter (fun l => is_label_line l = false) lines).

(** Input statements that are not labels, comments or blank. *)
Definition count_statements (code : list string) : nat :=
  length (filter (fun raw => strip_line raw <> "" /\ is_label_line (strip_line raw) = false) code).

(** Operands of the address-instruction lines of a line list. *)
Fixpoint operand_symbols (lines : list string) : list string :=
  match lines with
  | [] => []
  | line :: rest =>
      if py_startswith "@" line then py_slice_from line 1 :: operand_symbols rest
      else operand_symbols rest
  end.

(** The elements of a list in order of first occurrence, skipping
    those in [seen]. *)
Fixpoint dedup_seen (seen : list string) (l : list string) : list string :=
  match l with
  | [] => []
  | x :: xs =>
      if decide (x ∈ seen) then dedup_seen seen xs else x :: dedup_seen (x :: seen) xs
  end.

Definition first_occurrences (l : list string) : list string := dedup_seen [] l.

(** The symbols the variable pass has to allocate: non-numeric operands
    bound neither as label nor in the seeded table, in order of first
    occurrence. *)
Definition fresh_symbol (lbls : gmap string N) (vars0 : gmap string pyval) (s : string) : Prop :=
  py_isdigit s = false /\ lbls !! s = None /\ vars0 !! s = None.

#[global] Instance fresh_symbol_dec lbls vars0 s : Decision (fresh_symbol lbls vars0 s).
Proof. unfold fresh_symbol. apply _. Defined.

Definition user_variables (lbls : gmap string N) (vars0 : gmap string pyval)
    (lines : list string) : list string :=
  first_occurrences (filter (fresh_symbol lbls vars0) (operand_symbols lines)).

Fixpoint index_of (x : string) (l : list string) : option nat :=
  match l with
  | [] => None
  | y :: l' => if decide (x = y) then Some 0 else S <$> index_of x l'
  end.

(** The positions, counted from [k], of the label declarations. *)
Fixpoint label_positions (k : nat) (lines : list string) : list nat :=
  match lines with
  | [] => []
  | line :: rest =>
      if is_label_line line then k :: label_positions (S k) rest
      else label_positions (S k) rest
  end.

(** Strings without whitespace (in the sense of [py_isspace]). *)
Fixpoint no_space (s : string) : bool :=
  match s with
  | EmptyString => true
  | String c s' => negb (py_isspace c) && no_space s'
  end.

(** Tokens containing neither separator of a compute instruction. *)
Definition sep_free (s : string) : bool :=
  (count_char "=" s =? 0)%nat && (count_char ";" s =? 0)%nat.

(** The text of a compute instruction in one of its four shapes. *)
Definition render_compute (d : option string) (c : string) (j : option string) : string :=
  match d, j with
  | None, None => c
  | Some d, None => d ++ "=" ++ c
  | None, Some j => c ++ ";" ++ j
  | Some d, Some j => d ++ "=" ++ c ++ ";" ++ j
  end.

(** An instruction the encoder is meant for: address operands fit in
    15 bits. *)
Definition in_range (i : instr) : Prop :=
  match i with
  | InsA n => (n <= 32767)%N
  | InsC _ _ _ => True
  end.

(** An unknown mnemonic in a compute instruction. *)
Definition unknown_token (d : option string) (c : string) (j : option string) : Prop :=
  dict_get dest_table d = None \/ dict_get comp_table (Some c) = None \/
  dict_get jump_table j = None.

(** The entries of a table with a key other than [None]. *)
Definition some_keys (t : list (option string * string)) : list (option string * string) :=
  filter (fun kv => kv.1 <> None) t.

(** What a use [@name] of a label bound to [idx] resolves to when the
    variable table was seeded with [vars0]: the seeded value when [name]
    is one of its keys, the label's index otherwise. *)
Definition label_use_value (vars0 : gmap string pyval) (name : string) (idx : N) : option N :=
  match vars0 !! name with
  | Some v => py_int v
  | None => Some idx
  end.


(* ------------------------------------------------------------------- *)
(** ** String lemmas *)

Lemma substring_0_length (s : string) : substring 0 (String.length s) s = s.
Proof. induction s as [|c s IH]; simpl; [reflexivity | now rewrite IH]. Qed.

Lemma slice_from_1_cons (c : ascii) (s : string) : py_slice_from (String c s) 1 = s.
Proof. unfold py_slice_from. simpl. rewrite Nat.sub_0_r. apply substring_0_length. Qed.

Lemma slice_from_2_prefix (a b : ascii) (s : string) :
  py_slice_from (String a (String b s)) 2 = s.
Proof. unfold py_slice_from. simpl. rewrite Nat.sub_0_r. apply substring_0_length. Qed.

Lemma string_app_nil (t : string) : "" ++ t = t.
Proof. reflexivity. Qed.

Lemma string_app_cons (c : ascii) (s t : string) : String c s ++ t = String c (s ++ t).
Proof. reflexivity. Qed.

Lemma string_app_nil_r (s : string) : s ++ "" = s.
Proof. induction s as [|c s IH]; [reflexivity | now rewrite string_app_cons, IH]. Qed.

Lemma string_app_length (s t : string) :
  String.length (s ++ t) = String.length s + String.length t.
Proof.
  induction s as [|c s IH]; [reflexivity|].
  rewrite string_app_cons. simpl. congruence.
Qed.

Lemma string_app_assoc (s t u : string) : (s ++ t) ++ u = s ++ (t ++ u).
Proof.
  induction s as [|c s IH]; [reflexivity|].
  rewrite !string_app_cons. congruence.
Qed.

Lemma is_bits_app (s t : string) : is_bits (s ++ t) = is_bits s && is_bits t.
Proof.
  induction s as [|c s IH]; [reflexivity|].
  rewrite string_app_cons. simpl. rewrite IH. apply andb_assoc.
Qed.

Lemma bits_value_from_app (acc : N) (s t : string) :
  bits_value_from acc (s ++ t) = bits_value_from (bits_value_from acc s) t.
Proof.
  revert acc. induction s as [|c s IH]; intros acc; [reflexivity|].
  rewrite string_app_cons. simpl. apply IH.
Qed.

(* ------------------------------------------------------------------- *)
(** ** The binary numerals of [get_binary_string] *)

Lemma pos_bin_app (p : positive) (acc : string) : pos_bin p acc = pos_bin p "" ++ acc.
Proof.
  revert acc. induction p as [p IH|p IH|]; intros acc; simpl; try reflexivity.
  - rewrite IH, (IH "1"), string_app_assoc. reflexivity.
  - rewrite IH, (IH "0"), string_app_assoc. reflexivity.
Qed.

Lemma pos_bin_length (p : positive) : String.length (pos_bin p "") = Pos.size_nat p.
Proof.
  induction p as [p IH|p IH|]; simpl; try reflexivity;
    rewrite pos_bin_app, string_app_length, IH; simpl; lia.
Qed.

Lemma pos_bin_bits (p : positive) : is_bits (pos_bin p "") = true.
Proof.
  induction p as [p IH|p IH|]; simpl; try reflexivity;
    rewrite pos_bin_app, is_bits_app, IH; reflexivity.
Qed.

Lemma pos_bin_value (p : positive) : bits_value (pos_bin p "") = Npos p.
Proof.
  unfold bits_value.
  induction p as [p IH|p IH|]; simpl; try reflexivity;
    rewrite pos_bin_app, bits_value_from_app, IH; simpl; lia.
Qed.

Lemma bin_digits_length (i : N) : String.length (bin_digits i) = match i with N0 => 1 | Npos p => Pos.size_nat p end.
Proof. destruct i; [reflexivity | apply pos_bin_length]. Qed.

Lemma bin_digits_bits (i : N) : is_bits (bin_digits i) = true.
Proof. destruct i; [reflexivity | apply pos_bin_bits]. Qed.

Lemma bin_digits_value (i : N) : bits_value (bin_digits i) = i.
Proof. destruct i; [reflexivity | apply pos_bin_value]. Qed.

Lemma zeros_length (k : nat) : String.length (zeros k) = k.
Proof. induction k; simpl; congruence. Qed.

Lemma zeros_bits (k : nat) : is_bits (zeros k) = true.
Proof. induction k; simpl; [reflexivity | now rewrite IHk]. Qed.

Lemma zeros_value (k : nat) (s : string) : bits_value (zeros k ++ s) = bits_value s.
Proof.
  unfold bits_value. rewrite bits_value_from_app. f_equal.
  induction k; simpl; [reflexivity | exact IHk].
Qed.

Lemma size_nat_lt_pow2 (p : positive) (k : nat) :
  (Npos p < pow2 k)%N -> (Pos.size_nat p <= k)%nat.
Proof.
  revert k. induction p as [p IH|p IH|]; intros [|k] Hlt; simpl in *; try lia.
  - apply le_n_S, IH. lia.
  - apply le_n_S, IH. lia.
Qed.



Lemma get_binary_string_eq (i : N) (n : nat) :
  get_binary_string i n = zeros (n - String.length (bin_digits i)) ++ bin_digits i.
Proof.
  unfold get_binary_string, py_format_bin_alt.
  rewrite !string_app_cons, string_app_nil, slice_from_2_prefix. do 2 f_equal. lia.
Qed.

Lemma assemble_ins_A (i : N) :
  assemble_ins (InsA i) =
  Some (String "0" (zeros (15 - String.length (bin_digits i)) ++ bin_digits i)).
Proof. simpl. rewrite get_binary_string_eq, string_app_cons, string_app_nil. reflexivity. Qed.

(* ------------------------------------------------------------------- *)
(** ** The normaliser *)

Lemma remove_unnecessary_fold (lines acc : list string) :
  fold_left (fun acc line =>
      let stripped := strip_line line in
      if String.eqb stripped "" then acc else (acc ++ [stripped])%list) lines acc
  = (acc ++ filter (fun s => s <> "") (map strip_line lines))%list.
Proof.
  revert acc. induction lines as [|line lines IH]; intros acc; simpl.
  - by rewrite app_nil_r.
  - rewrite IH, filter_cons.
    destruct (String.eqb_spec (strip_line line) "") as [Heq|Hne].
    + rewrite decide_False by (intros H; apply H, Heq). reflexivity.
    + rewrite decide_True by exact Hne. by rewrite <- app_assoc.
Qed.

Lemma remove_unnecessary_code (st : Asm) :
  assembly_code (remove_unnecessary st) =
  filter (fun s => s <> "") (map strip_line (assembly_code st)).
Proof. unfold remove_unnecessary. simpl. apply remove_unnecessary_fold. Qed.

Lemma remove_unnecessary_tables (st : Asm) :
  labels (remove_unnecessary st) = labels st /\
  variables (remove_unnecessary st) = variables st.
Proof. split; reflexivity. Qed.

(* ------------------------------------------------------------------- *)
(** ** The label pass *)

Lemma find_labels_loop_indexes (index : nat) (cur : N) (lines : list string)
    (lbls : gmap string N) (li : list nat) :
  (find_labels_loop index cur lines lbls li).2 = (li ++ label_positions index lines)%list.
Proof.
  revert index cur lbls li. induction lines as [|line lines IH]; intros index cur lbls li; simpl.
  - by rewrite app_nil_r.
  - unfold is_label_line. destruct (py_startswith "(" line).
    + rewrite IH. by rewrite <- app_assoc.
    + apply IH.
Qed.

Lemma label_positions_ge (k : nat) (lines : list string) :
  Forall (fun i => k <= i) (label_positions k lines).
Proof.
  revert k. induction lines as [|line lines IH]; intros k; simpl; [constructor|].
  destruct (is_label_line line).
  - constructor; [lia|]. eapply Forall_impl; [apply IH|]. simpl. lia.
  - eapply Forall_impl; [apply IH|]. simpl. lia.
Qed.

Lemma label_positions_sorted (k : nat) (lines : list string) :
  StronglySorted le (label_positions k lines).
Proof.
  revert k. induction lines as [|line lines IH]; intros k; simpl; [constructor|].
  destruct (is_label_line line); [|apply IH].
  constructor; [apply IH|]. eapply Forall_impl; [apply label_positions_ge|]. simpl. lia.
Qed.

#[local] Instance rev_order_trans : Transitive rev_order.
Proof. unfold rev_order. intros x y z. lia. Qed.
#[local] Instance rev_order_antisymm : AntiSymm (=) rev_order.
Proof. unfold rev_order. intros x y. lia. Qed.
#[local] Instance rev_order_total : Total rev_order.
Proof. unfold rev_order. intros x y. lia. Qed.

(** [sorted(label_indexes, reverse=True)] is the list reversed. *)
Lemma sort_label_positions (lines : list string) :
  merge_sort rev_order (label_positions 0 lines) = reverse (label_positions 0 lines).
Proof.
  apply (Sorted_unique rev_order).
  - apply Sorted_merge_sort. apply _.
  - apply (Sorted_reverse le), StronglySorted_Sorted, label_positions_sorted.
  - rewrite merge_sort_Permutation. symmetry. apply reverse_Permutation.
Qed.

(** Deleting the declaration lines from the back keeps the other
    indices valid: the result is the list with them filtered out. *)
Lemma delete_label_positions (pre lines : list string) :
  fold_left (fun code i => delete i code)
    (reverse (label_positions (length pre) lines)) (pre ++ lines)%list
  = (pre ++ filter (fun l => is_label_line l = false) lines)%list.
Proof.
  revert pre. induction lines as [|line lines IH]; intros pre; simpl.
  - reflexivity.
  - rewrite filter_cons. destruct (is_label_line line) eqn:Hl.
    + rewrite decide_False by discriminate.
      rewrite reverse_cons, fold_left_app.
      pose proof (IH (pre ++ [line])%list) as H.
      rewrite length_app, <- app_assoc in H. simpl in H. rewrite Nat.add_1_r in H.
      rewrite H. simpl. rewrite <- app_assoc. simpl. apply delete_middle.
    + rewrite decide_True by reflexivity.
      pose proof (IH (pre ++ [line])%list) as H.
      rewrite length_app, <- !app_assoc in H. simpl in H. rewrite Nat.add_1_r in H.
      exact H.
Qed.

Lemma find_labels_code (st : Asm) :
  assembly_code (find_labels st) =
  filter (fun l => is_label_line l = false) (assembly_code st).
Proof.
  unfold find_labels.
  pose proof (find_labels_loop_indexes 0 0%N (assembly_code st) (labels st) []) as H.
  destruct (find_labels_loop 0 0%N (assembly_code st) (labels st) []) as [lbls li].
  simpl in *. subst li. rewrite sort_label_positions.
  apply (delete_label_positions []).
Qed.

Lemma find_labels_labels (st : Asm) :
  labels (find_labels st) = (find_labels_loop 0 0%N (assembly_code st) (labels st) []).1.
Proof. unfold find_labels. by destruct (find_labels_loop 0 0%N (assembly_code st) (labels st) []). Qed.

Lemma find_labels_variables (st : Asm) : variables (find_labels st) = variables st.
Proof. unfold find_labels. by destruct (find_labels_loop 0 0%N (assembly_code st) (labels st) []). Qed.

Lemma count_nonlabel_cons (line : string) (lines : list string) :
  count_nonlabel (line :: lines) =
  (if is_label_line line then 0 else 1) + count_nonlabel lines.
Proof.
  unfold count_nonlabel. rewrite filter_cons.
  destruct (is_label_line line).
  - rewrite decide_False by discriminate. reflexivity.
  - rewrite decide_True by reflexivity. reflexivity.
Qed.

Lemma find_labels_loop_keep (index : nat) (cur : N) (lines : list string)
    (lbls : gmap string N) (li : list nat) (nm : string) :
  (forall line, line ∈ lines -> is_label_line line = true -> py_strip_ends line <> nm) ->
  (find_labels_loop index cur lines lbls li).1 !! nm = lbls !! nm.
Proof.
  revert index cur lbls li. induction lines as [|line lines IH]; intros index cur lbls li Hnot;
    simpl; [reflexivity|].
  assert (Hrest : forall l, l ∈ lines -> is_label_line l = true -> py_strip_ends l <> nm)
    by (intros l Hin; apply Hnot; by right).
  unfold is_label_line in Hnot |- *.
  destruct (py_startswith "(" line) eqn:Hl.
  - rewrite IH by exact Hrest. apply lookup_insert_ne.
    apply (Hnot line); [left | exact Hl].
  - by apply IH.
Qed.

Lemma find_labels_loop_last (index : nat) (cur : N) (lines : list string)
    (lbls : gmap string N) (li : list nat) (k : nat) (line : string) :
  lines !! k = Some line -> is_label_line line = true ->
  (forall j line', k < j -> lines !! j = Some line' -> is_label_line line' = true ->
     py_strip_ends line' <> py_strip_ends line) ->
  (find_labels_loop index cur lines lbls li).1 !! py_strip_ends line
  = Some (cur + N.of_nat (count_nonlabel (take k lines)))%N.
Proof.
  revert index cur lbls li k. induction lines as [|x lines IH];
    intros index cur lbls li k Hk Hlab Hlast; [discriminate|].
  destruct k as [|k].
  - simpl in Hk. injection Hk as <-. simpl. unfold is_label_line in Hlab. rewrite Hlab.
    rewrite find_labels_loop_keep.
    + rewrite lookup_insert_eq. f_equal. unfold count_nonlabel. simpl. lia.
    + intros l Hin Hl. apply list_elem_of_lookup in Hin as [j Hj].
      apply (Hlast (S j)); [lia | exact Hj | exact Hl].
  - simpl in Hk. simpl take. rewrite count_nonlabel_cons. simpl.
    assert (Hlast' : forall j line', k < j -> lines !! j = Some line' ->
              is_label_line line' = true -> py_strip_ends line' <> py_strip_ends line)
      by (intros j l' Hj; apply (Hlast (S j)); lia).
    unfold is_label_line at 1. destruct (py_startswith "(" x) eqn:Hx.
    + rewrite (IH _ _ _ _ k Hk Hlab Hlast'). reflexivity.
    + rewrite (IH _ _ _ _ k Hk Hlab Hlast'). f_equal. lia.
Qed.

Lemma find_labels_loop_some (index : nat) (cur : N) (lines : list string)
    (lbls : gmap string N) (li : list nat) (nm : string) :
  is_Some (lbls !! nm) -> is_Some ((find_labels_loop index cur lines lbls li).1 !! nm).
Proof.
  revert index cur lbls li. induction lines as [|line lines IH]; intros index cur lbls li Hs;
    simpl; [exact Hs|].
  destruct (py_startswith "(" line); apply IH; [|exact Hs].
  destruct (decide (py_strip_ends line = nm)) as [<-|Hne].
  - rewrite lookup_insert_eq. eauto.
  - by rewrite lookup_insert_ne.
Qed.

Lemma find_labels_loop_declared (index : nat) (cur : N) (lines : list string)
    (lbls : gmap string N) (li : list nat) (line : string) :
  line ∈ lines -> is_label_line line = true ->
  is_Some ((find_labels_loop index cur lines lbls li).1 !! py_strip_ends line).
Proof.
  revert index cur lbls li. induction lines as [|x lines IH]; intros index cur lbls li Hin Hl;
    [by apply not_elem_of_nil in Hin|].
  apply elem_of_cons in Hin as [->|Hin]; simpl.
  - unfold is_label_line in Hl. rewrite Hl. apply find_labels_loop_some.
    rewrite lookup_insert_eq. eauto.
  - destruct (py_startswith "(" x); by apply IH.
Qed.

(* ------------------------------------------------------------------- *)
(** ** The variable pass *)

Lemma dedup_seen_not_seen (seen l : list string) (x : string) :
  x ∈ dedup_seen seen l -> x ∉ seen.
Proof.
  revert seen. induction l as [|y l IH]; intros seen Hx; simpl in Hx;
    [by apply not_elem_of_nil in Hx|].
  destruct (decide (y ∈ seen)); [by apply IH|].
  apply elem_of_cons in Hx as [->|Hx]; [assumption|].
  intros Hs. apply (IH _ Hx). by right.
Qed.

Lemma dedup_seen_NoDup (seen l : list string) : NoDup (dedup_seen seen l).
Proof.
  revert seen. induction l as [|y l IH]; intros seen; simpl; [constructor|].
  destruct (decide (y ∈ seen)); [apply IH|].
  constructor; [|apply IH].
  intros Hy. apply (dedup_seen_not_seen _ _ _ Hy). left.
Qed.

Lemma dedup_seen_elem (seen l : list string) (x : string) :
  x ∈ dedup_seen seen l <-> x ∈ l /\ x ∉ seen.
Proof.
  revert seen. induction l as [|y l IH]; intros seen; simpl.
  - split; [intros H; by apply not_elem_of_nil in H | intros [H _]; by apply not_elem_of_nil in H].
  - destruct (decide (y ∈ seen)) as [Hy|Hy].
    + rewrite IH, elem_of_cons. split; [tauto|].
      intros [[->|H] Hn]; [contradiction | tauto].
    + rewrite elem_of_cons, IH, elem_of_cons, elem_of_cons. split.
      * intros [->|[H1 H2]]; [tauto|]. split; [tauto|]. tauto.
      * intros [[->|H] Hn]; [tauto|].
        destruct (decide (x = y)); [tauto|]. right. tauto.
Qed.

Lemma index_of_not_elem (x : string) (l : list string) : x ∉ l -> index_of x l = None.
Proof.
  induction l as [|y l IH]; intros Hx; simpl; [reflexivity|].
  rewrite decide_False by (intros ->; apply Hx; left).
  rewrite IH; [reflexivity|]. intros H; apply Hx; by right.
Qed.

Lemma index_of_lookup (x : string) (l : list string) (i : nat) :
  NoDup l -> l !! i = Some x -> index_of x l = Some i.
Proof.
  revert i. induction l as [|y l IH]; intros i Hnd Hi; [discriminate|].
  apply NoDup_cons in Hnd as [Hy Hnd].
  destruct i as [|i]; simpl in Hi |- *.
  - injection Hi as ->. by rewrite decide_True.
  - rewrite decide_False.
    + by rewrite (IH i Hnd Hi).
    + intros ->. apply Hy. by apply list_elem_of_lookup_2 with i.
Qed.

Lemma index_of_elem (x : string) (l : list string) (i : nat) :
  index_of x l = Some i -> x ∈ l.
Proof.
  revert i. induction l as [|y l IH]; intros i Hi; [discriminate|]. simpl in Hi.
  destruct (decide (x = y)) as [->|Hne]; [left|].
  destruct (index_of x l) eqn:E; [|discriminate]. right. by apply (IH n).
Qed.

(** The loop of [find_variables] against [dedup_seen]: a symbol fresh
    for the seeded table [vars0] is bound to [next + i] when it is the
    [i]-th new one; every other binding of [vars] stays. *)
Lemma find_variables_loop_lookup (lbls : gmap string N) (vars0 : gmap string pyval) :
  forall (lines : list string) (vars : gmap string pyval) (next : N) (seen : list string),
  (forall s, ~ fresh_symbol lbls vars0 s -> vars !! s = vars0 !! s) ->
  (forall s, fresh_symbol lbls vars0 s -> (vars !! s = None <-> s ∉ seen)) ->
  forall s,
  find_variables_loop lbls next lines vars !! s =
  match index_of s (dedup_seen seen (filter (fresh_symbol lbls vars0) (operand_symbols lines))) with
  | Some i => Some (PyInt (next + N.of_nat i))
  | None => vars !! s
  end.
Proof.
  induction lines as [|line lines IH]; intros vars next seen Hstale Hseen s; simpl;
    [reflexivity|].
  destruct (py_startswith "@" line) eqn:Hat; simpl; [|by apply IH].
  set (sym := py_slice_from line 1).
  rewrite filter_cons.
  destruct (py_isdigit sym) eqn:Hdig.
  { rewrite decide_False by (intros [H _]; congruence). by apply IH. }
  destruct (vars !! sym) as [w|] eqn:Hv; [|destruct (lbls !! sym) as [n|] eqn:Hlb].
  - (* already bound *)
    destruct (decide (fresh_symbol lbls vars0 sym)) as [Hf|Hf]; [|by apply IH].
    simpl. rewrite decide_True; [by apply IH|].
    destruct (decide (sym ∈ seen)) as [|Hn]; [assumption|].
    apply (Hseen sym Hf) in Hn. congruence.
  - (* a label *)
    rewrite decide_False by (intros (_ & H & _); congruence). by apply IH.
  - (* a new variable *)
    assert (Hf : fresh_symbol lbls vars0 sym).
    { destruct (decide (fresh_symbol lbls vars0 sym)) as [|Hf]; [assumption|].
      pose proof (Hstale sym Hf) as E. rewrite Hv in E.
      exfalso. apply Hf. repeat split; congruence. }
    assert (Hns : sym ∉ seen) by (apply (Hseen sym Hf); exact Hv).
    rewrite decide_True by exact Hf. simpl. rewrite decide_False by exact Hns.
    rewrite (IH (<[sym := PyInt next]> vars) (next + 1)%N (sym :: seen)).
    + simpl. destruct (decide (s = sym)) as [->|Hne].
      * rewrite index_of_not_elem.
        -- rewrite lookup_insert_eq. f_equal. f_equal. lia.
        -- intros Hin. apply (dedup_seen_not_seen _ _ _ Hin). left.
      * destruct (index_of s _) as [i|]; simpl.
        -- do 2 f_equal. lia.
        -- by rewrite lookup_insert_ne.
    + intros s' Hs'. rewrite lookup_insert_ne; [by apply Hstale|].
      intros <-. contradiction.
    + intros s' Hs'. destruct (decide (s' = sym)) as [->|Hne].
      * rewrite lookup_insert_eq. split; [discriminate|]. intros H; exfalso; apply H; left.
      * rewrite lookup_insert_ne by congruence. rewrite (Hseen s' Hs'), elem_of_cons. tauto.
Qed.

(** A binding present before the loop is never changed by it. *)
Lemma find_variables_loop_keep (lbls : gmap string N) (lines : list string)
    (vars : gmap string pyval) (next : N) (s : string) (v : pyval) :
  vars !! s = Some v -> find_variables_loop lbls next lines vars !! s = Some v.
Proof.
  revert vars next. induction lines as [|line lines IH]; intros vars next Hv; simpl; [exact Hv|].
  destruct (py_startswith "@" line); simpl; [|by apply IH].
  destruct (py_isdigit _); [by apply IH|].
  destruct (vars !! py_slice_from line 1) eqn:E; [by apply IH|].
  destruct (lbls !! _); apply IH; [exact Hv|].
  rewrite lookup_insert_ne; [exact Hv|]. intros <-. congruence.
Qed.

(** Lines using a bound symbol are no-ops of the loop. *)
Lemma find_variables_loop_skip (lbls : gmap string N) (lines : list string)
    (vars : gmap string pyval) (next : N) (s : string) (v : pyval) :
  vars !! s = Some v ->
  find_variables_loop lbls next (filter (fun l => l <> "@" ++ s) lines) vars
  = find_variables_loop lbls next lines vars.
Proof.
  revert vars next. induction lines as [|line lines IH]; intros vars next Hv; [reflexivity|].
  rewrite filter_cons. destruct (decide (line <> "@" ++ s)) as [Hne|Heq].
  - simpl. destruct (py_startswith "@" line); simpl; [|by apply IH].
    destruct (py_isdigit _); [by apply IH|].
    destruct (vars !! py_slice_from line 1) eqn:E; [by apply IH|].
    destruct (lbls !! _); apply IH; [exact Hv|].
    rewrite lookup_insert_ne; [exact Hv|]. intros <-. congruence.
  - apply dec_stable in Heq. subst line. rewrite IH by exact Hv.
    change ("@" ++ s) with (String "@" s). simpl.
    rewrite slice_from_1_cons, Hv. by destruct (py_isdigit s).
Qed.

(* ------------------------------------------------------------------- *)
(** ** The parser *)

(** The four [if]s of [build_intermediary] cover every line: the loop
    body always appends or raises. *)
Lemma parse_line_appends (lbls : gmap string N) (vars : gmap string pyval) (line : string) :
  parse_line lbls vars line <> Some None.
Proof.
  unfold parse_line. destruct (py_startswith "@" line).
  - destruct (py_int _); discriminate.
  - cbv zeta. destruct (py_find_z "=" line =? -1)%Z, (py_find_z ";" line =? -1)%Z;
      simpl; discriminate.
Qed.

Lemma parse_line_compute (lbls : gmap string N) (vars : gmap string pyval) (line : string) :
  py_startswith "@" line = false ->
  exists d c j, parse_line lbls vars line = Some (Some (InsC d c j)).
Proof.
  intros Hat. unfold parse_line. rewrite Hat. cbv zeta.
  destruct (py_find_z "=" line =? -1)%Z, (py_find_z ";" line =? -1)%Z; simpl; eauto.
Qed.

Lemma parse_line_variable (lbls : gmap string N) (vars : gmap string pyval)
    (s : string) (v : pyval) :
  vars !! s = Some v ->
  parse_line lbls vars ("@" ++ s) = (n ← py_int v; Some (Some (InsA n))).
Proof.
  intros Hv. change ("@" ++ s) with (String "@" s).
  unfold parse_line. simpl. rewrite slice_from_1_cons, Hv. reflexivity.
Qed.

Lemma parse_line_label (lbls : gmap string N) (vars : gmap string pyval)
    (s : string) (n : N) :
  vars !! s = None -> lbls !! s = Some n ->
  parse_line lbls vars ("@" ++ s) = Some (Some (InsA n)).
Proof.
  intros Hv Hl. change ("@" ++ s) with (String "@" s).
  unfold parse_line. simpl. rewrite slice_from_1_cons, Hv, Hl. reflexivity.
Qed.

Lemma build_intermediary_loop_ok (lbls : gmap string N) (vars : gmap string pyval)
    (lines : list string) (acc out : list instr) :
  build_intermediary_loop lbls vars lines acc = Some out ->
  exists outs, out = (acc ++ outs)%list /\
    Forall2 (fun l i => parse_line lbls vars l = Some (Some i)) lines outs.
Proof.
  revert acc. induction lines as [|line lines IH]; intros acc H; simpl in H.
  - injection H as <-. exists []. split; [by rewrite app_nil_r | constructor].
  - destruct (parse_line lbls vars line) as [[ins|]|] eqn:E; [|by apply parse_line_appends in E | discriminate].
    apply IH in H as (outs & -> & Hf). exists (ins :: outs). split.
    + by rewrite <- app_assoc.
    + by constructor.
Qed.

Lemma build_intermediary_loop_compute (lbls : gmap string N) (vars : gmap string pyval)
    (lines : list string) (acc : list instr) :
  Forall (fun l => py_startswith "@" l = false) lines ->
  exists outs, build_intermediary_loop lbls vars lines acc = Some (acc ++ outs)%list /\
    Forall2 (fun l i => parse_line lbls vars l = Some (Some i) /\
                        exists d c j, i = InsC d c j) lines outs.
Proof.
  revert acc. induction lines as [|line lines IH]; intros acc Hall; simpl.
  - exists []. rewrite app_nil_r. split; [reflexivity | constructor].
  - apply Forall_cons in Hall as [Hat Hall].
    destruct (parse_line_compute lbls vars line Hat) as (d & c & j & E). rewrite E.
    destruct (IH (acc ++ [InsC d c j])%list Hall) as (outs & Ho & Hf).
    exists (InsC d c j :: outs). rewrite Ho, <- app_assoc. split; [reflexivity|].
    constructor; [split; eauto | exact Hf].
Qed.

(* ------------------------------------------------------------------- *)
(** ** The encoder *)

Lemma assemble_loop_ok (ins : list instr) (acc out : list string) :
  assemble_loop ins acc = Some out ->
  exists outs, out = (acc ++ outs)%list /\ Forall2 (fun i l => assemble_ins i = Some l) ins outs.
Proof.
  revert acc. induction ins as [|i ins IH]; intros acc H; simpl in H.
  - injection H as <-. exists []. split; [by rewrite app_nil_r | constructor].
  - destruct (assemble_ins i) as [line|] eqn:E; [|discriminate]. simpl in H.
    apply IH in H as (outs & -> & Hf). exists (line :: outs). split.
    + by rewrite <- app_assoc.
    + by constructor.
Qed.

Lemma dict_get_elem {K V} `{EqDecision K} (t : list (K * V)) (k : K) (v : V) :
  dict_get t k = Some v -> (k, v) ∈ t.
Proof.
  induction t as [|[k' v'] t IH]; simpl; [discriminate|].
  destruct (decide (k = k')) as [->|]; intros H.
  - injection H as ->. left.
  - right. by apply IH.
Qed.

Lemma comp_table_widths : table_widths 7 comp_table.
Proof. repeat constructor. Qed.

Lemma dest_table_widths : table_widths 3 dest_table.
Proof. repeat constructor. Qed.

Lemma jump_table_widths : table_widths 3 jump_table.
Proof. repeat constructor. Qed.

Lemma table_lookup_width (w : nat) (t : list (option string * string)) (k : option string) (v : string) :
  table_widths w t -> dict_get t k = Some v -> String.length v = w /\ is_bits v = true.
Proof.
  intros Ht Hk. apply dict_get_elem in Hk. unfold table_widths in Ht.
  rewrite Forall_forall in Ht. apply (Ht _ Hk).
Qed.

Lemma address_field (n : N) :
  (n <= 32767)%N ->
  String.length (zeros (15 - String.length (bin_digits n)) ++ bin_digits n) = 15 /\
  is_bits (zeros (15 - String.length (bin_digits n)) ++ bin_digits n) = true /\
  bits_value (zeros (15 - String.length (bin_digits n)) ++ bin_digits n) = n.
Proof.
  intros Hn.
  assert (Hlen : String.length (bin_digits n) <= 15).
  { rewrite bin_digits_length. destruct n as [|p]; [lia|].
    apply size_nat_lt_pow2. simpl. lia. }
  rewrite string_app_length, zeros_length, is_bits_app, zeros_bits, bin_digits_bits,
    zeros_value, bin_digits_value.
  repeat split; lia.
Qed.

Lemma assemble_ins_line (i : instr) (line : string) :
  assemble_ins i = Some line ->
  (forall n, i = InsA n -> (n <= 32767)%N) ->
  String.length line = 16 /\ is_bits line = true.
Proof.
  intros Hi Hr. destruct i as [n|d c j].
  - rewrite assemble_ins_A in Hi. injection Hi as <-.
    destruct (address_field n (Hr n eq_refl)) as (Hl & Hb & _).
    simpl. rewrite Hl, Hb. split; reflexivity.
  - unfold assemble_ins in Hi.
    destruct (dict_get dest_table d) as [dst|] eqn:Ed;
      destruct (dict_get comp_table (Some c)) as [cmp|] eqn:Ec;
      destruct (dict_get jump_table j) as [jmp|] eqn:Ej; simpl in Hi; try discriminate.
    injection Hi as <-.
    destruct (table_lookup_width _ _ _ _ dest_table_widths Ed) as [Ld Bd].
    destruct (table_lookup_width _ _ _ _ comp_table_widths Ec) as [Lc Bc].
    destruct (table_lookup_width _ _ _ _ jump_table_widths Ej) as [Lj Bj].
    rewrite !string_app_cons, string_app_nil. simpl.
    rewrite !string_app_length, !is_bits_app, Ld, Lc, Lj, Bd, Bc, Bj. split; reflexivity.
Qed.

(* ------------------------------------------------------------------- *)
(** ** The pipeline of [__init__] *)

Lemma after_symbols_code (predef : list (string * pyval)) (code : list string) :
  assembly_code (after_symbols predef code) =
  filter (fun l => is_label_line l = false) (filter (fun s => s <> "") (map strip_line code)).
Proof.
  unfold after_symbols, find_variables. simpl.
  rewrite find_labels_code, remove_unnecessary_code. reflexivity.
Qed.

Lemma after_symbols_labels (predef : list (string * pyval)) (code : list string) :
  labels (after_symbols predef code) =
  (find_labels_loop 0 0%N (filter (fun s => s <> "") (map strip_line code)) ∅ []).1.
Proof.
  unfold after_symbols, find_variables. simpl.
  rewrite find_labels_labels, remove_unnecessary_code. reflexivity.
Qed.

Lemma after_symbols_variables (predef : list (string * pyval)) (code : list string) :
  variables (after_symbols predef code) =
  find_variables_loop (labels (after_symbols predef code)) 16%N
    (assembly_code (after_symbols predef code)) (list_to_map predef).
Proof.
  unfold after_symbols, find_variables. simpl.
  rewrite find_labels_variables. reflexivity.
Qed.

Lemma Assembler_with_ok (predef : list (string * pyval)) (code : list string) (st : Asm) :
  Assembler_with predef code = Some st ->
  exists ins, build_intermediary_loop (labels (after_symbols predef code))
                (variables (after_symbols predef code)) (assembly_code (after_symbols predef code)) [] = Some ins /\
              assemble_loop ins [] = Some (machine_code st) /\
              intermediary_code st = ins.
Proof.
  unfold Assembler_with, build_intermediary. intros H.
  destruct (build_intermediary_loop _ _ _ []) as [ins|] eqn:Eb; [|discriminate].
  simpl in H. unfold assemble in H. simpl in H.
  destruct (assemble_loop ins []) as [out|] eqn:Ea; [|discriminate].
  simpl in H. injection H as <-. exists ins. simpl. auto.
Qed.

Lemma count_statements_filter (code : list string) :
  length (filter (fun l => is_label_line l = false) (filter (fun s => s <> "") (map strip_line code)))
  = count_statements code.
Proof.
  unfold count_statements. induction code as [|raw code IH]; [reflexivity|].
  simpl. rewrite !filter_cons.
  destruct (decide (strip_line raw <> "")) as [Hne|Heq].
  - rewrite filter_cons. destruct (decide (is_label_line (strip_line raw) = false)).
    + rewrite decide_True by tauto. simpl. by rewrite IH.
    + rewrite decide_False by tauto. exact IH.
  - rewrite decide_False by tauto. exact IH.
Qed.

Lemma Forall2_Forall_r {A B} (P : A -> B -> Prop) (Q : B -> Prop) (xs : list A) (ys : list B) :
  Forall2 P xs ys -> (forall x y, x ∈ xs -> P x y -> Q y) -> Forall Q ys.
Proof.
  induction 1 as [|x y xs ys Hxy Hrest IH]; intros HQ; constructor.
  - apply (HQ x); [left | exact Hxy].
  - apply IH. intros x' y' Hx'. apply HQ. by right.
Qed.

Lemma predefined_symbols_NoDup : NoDup predefined_symbols.*1.
Proof. apply NoDup_ListNoDup. vm_compute. repeat constructor; simpl; intuition discriminate. Qed.

Lemma predefined_symbols_values (s : string) (v : pyval) :
  (list_to_map predefined_symbols : gmap string pyval) !! s = Some v ->
  exists n, py_int v = Some n.
Proof.
  intros H. apply elem_of_list_to_map_2 in H. unfold predefined_symbols in H.
  repeat (apply elem_of_cons in H as [H|H]; [injection H as -> ->; eexists; reflexivity|]).
  by apply not_elem_of_nil in H.
Qed.


Lemma after_symbols_variables_lookup (predef : list (string * pyval)) (code : list string) (s : string) :
  variables (after_symbols predef code) !! s =
  match index_of s (user_variables (labels (after_symbols predef code)) (list_to_map predef)
                      (assembly_code (after_symbols predef code))) with
  | Some i => Some (PyInt (16 + N.of_nat i))
  | None => (list_to_map predef : gmap string pyval) !! s
  end.
Proof.
  rewrite after_symbols_variables. unfold user_variables, first_occurrences.
  apply find_variables_loop_lookup.
  - reflexivity.
  - intros s' (_ & _ & H). split; [intros _; apply not_elem_of_nil | intros _; exact H].
Qed.

Lemma user_variables_elem (lbls : gmap string N) (vars0 : gmap string pyval)
    (lines : list string) (s : string) :
  s ∈ user_variables lbls vars0 lines -> fresh_symbol lbls vars0 s.
Proof.
  unfold user_variables, first_occurrences. rewrite dedup_seen_elem, list_elem_of_filter.
  tauto.
Qed.

(* =================================================================== *)
(** * Further properties of the code *)

(* ------------------------------------------------------------------- *)
(** ** The normaliser *)

Lemma join_split_no_space (s : string) : no_space (join_split s) = true.
Proof.
  induction s as [|c s IH]; simpl; [reflexivity|].
  destruct (py_isspace c) eqn:E; simpl; [exact IH|]. rewrite E, IH. reflexivity.
Qed.

Lemma join_split_id (s : string) : no_space s = true -> join_split s = s.
Proof.
  induction s as [|c s IH]; simpl; [reflexivity|].
  intros H. apply andb_prop in H as [Hc Hs]. apply negb_true_iff in Hc.
  rewrite Hc, IH by exact Hs. reflexivity.
Qed.

Lemma no_space_substring (s : string) (n m : nat) :
  no_space s = true -> no_space (substring n m s) = true.
Proof.
  revert n m. induction s as [|c s IH]; intros n m H; simpl.
  - destruct n, m; reflexivity.
  - simpl in H. apply andb_prop in H as [Hc Hs].
    destruct n as [|n]; [destruct m as [|m]|]; simpl; [reflexivity| |by apply IH].
    rewrite Hc. simpl. by apply IH.
Qed.

Lemma prefix_substring_0 (p s : string) (k : nat) :
  String.prefix p (substring 0 k s) = true -> String.prefix p s = true.
Proof.
  revert s k. induction p as [|a p IH]; intros s k H; [destruct s; reflexivity|].
  destruct s as [|b s]; destruct k as [|k]; simpl in H; try discriminate.
  simpl. destruct (Ascii.ascii_dec a b); [|discriminate]. by apply (IH s k).
Qed.

Lemma index_0_cons (p : string) (b : ascii) (s : string) :
  index 0 p (String b s) =
    if String.prefix p (String b s) then Some 0
    else match index 0 p s with Some n => Some (S n) | None => None end.
Proof. reflexivity. Qed.

(** Cutting a string at the first occurrence of [p] leaves no [p]. *)
Lemma index_before_first (p s : string) (i : nat) :
  p <> "" -> index 0 p s = Some i -> index 0 p (substring 0 i s) = None.
Proof.
  intros Hp. revert i. induction s as [|b s IH]; intros i Hi.
  - destruct p; [contradiction | discriminate].
  - rewrite index_0_cons in Hi. destruct (String.prefix p (String b s)) eqn:Hpre.
    + injection Hi as <-. simpl. destruct p; [contradiction | reflexivity].
    + destruct (index 0 p s) as [i'|] eqn:E; [|discriminate]. injection Hi as <-.
      change (substring 0 (S i') (String b s)) with (String b (substring 0 i' s)).
      rewrite index_0_cons. destruct (String.prefix p (String b (substring 0 i' s))) eqn:Hpre'.
      * exfalso. change (String b (substring 0 i' s)) with (substring 0 (S i') (String b s)) in Hpre'.
        apply prefix_substring_0 in Hpre'. congruence.
      * by rewrite (IH i' eq_refl).
Qed.

Lemma strip_line_clean (line : string) :
  no_space (strip_line line) = true /\ py_find "//" (strip_line line) = None.
Proof.
  unfold strip_line. destruct (py_find "//" (join_split line)) as [i|] eqn:E.
  - split; [apply no_space_substring, join_split_no_space|].
    unfold py_slice, py_find in *. rewrite Nat.sub_0_r.
    apply index_before_first; [discriminate | exact E].
  - split; [apply join_split_no_space | exact E].
Qed.

Lemma strip_line_id (s : string) :
  no_space s = true -> py_find "//" s = None -> strip_line s = s.
Proof. intros Hs Hc. unfold strip_line. rewrite join_split_id, Hc by exact Hs. reflexivity. Qed.

(** X1.  The normaliser keeps, in order, the stripped form of every line
    that is not empty once stripped; each kept line is non-empty and has
    neither whitespace nor a [//] left. *)
Theorem normaliser_lines_clean (st : Asm) :
  assembly_code (remove_unnecessary st) =
    filter (fun s => s <> "") (map strip_line (assembly_code st)) /\
  Forall (fun l => l <> "" /\ no_space l = true /\ py_find "//" l = None)
    (assembly_code (remove_unnecessary st)).
Proof.
  rewrite remove_unnecessary_code. split; [reflexivity|].
  apply Forall_forall. intros l Hl. apply list_elem_of_filter in Hl as [Hne Hin].
  apply list_elem_of_fmap in Hin as (raw & -> & _).
  destruct (strip_line_clean raw). auto.
Qed.

(** X2.  Normalising twice is normalising once. *)
Theorem remove_unnecessary_idempotent (st : Asm) :
  remove_unnecessary (remove_unnecessary st) = remove_unnecessary st.
Proof.
  assert (Hcode : assembly_code (remove_unnecessary (remove_unnecessary st)) =
                  assembly_code (remove_unnecessary st)).
  { rewrite (remove_unnecessary_code (remove_unnecessary st)).
    set (L := assembly_code (remove_unnecessary st)).
    assert (Hclean : Forall (fun l => l <> "" /\ no_space l = true /\ py_find "//" l = None) L).
    { unfold L. rewrite remove_unnecessary_code.
      apply Forall_forall. intros l Hl. apply list_elem_of_filter in Hl as [Hne Hin].
      apply list_elem_of_fmap in Hin as (raw & -> & _).
      destruct (strip_line_clean raw). auto. }
    clearbody L. induction Hclean as [|l L (Hne & Hs & Hc) _ IH]; [reflexivity|].
    simpl. rewrite filter_cons, strip_line_id by assumption.
    rewrite decide_True by exact Hne. by rewrite IH. }
  set (st1 := remove_unnecessary st) in *. clearbody st1.
  destruct st1 as [a i m l v]. unfold remove_unnecessary in *. simpl in *.
  by rewrite Hcode.
Qed.

(* ------------------------------------------------------------------- *)
(** ** The label table *)

Lemma find_labels_loop_origin (index : nat) (cur : N) (lines : list string)
    (lbls : gmap string N) (li : list nat) (nm : string) (n : N) :
  (find_labels_loop index cur lines lbls li).1 !! nm = Some n ->
  lbls !! nm = Some n \/
  exists line, line ∈ lines /\ is_label_line line = true /\ py_strip_ends line = nm.
Proof.
  revert index cur lbls li. induction lines as [|line lines IH]; intros index cur lbls li H;
    simpl in H; [by left|].
  destruct (py_startswith "(" line) eqn:Hl.
  - destruct (IH _ _ _ _ H) as [Hin | (line' & Hin & Hlab & Hnm)].
    + destruct (decide (py_strip_ends line = nm)) as [<-|Hne].
      * right. exists line. unfold is_label_line. split; [left|]; auto.
      * left. by rewrite lookup_insert_ne in Hin.
    + right. exists line'. repeat split; auto. by right.
  - destruct (IH _ _ _ _ H) as [Hin | (line' & Hin & Hlab & Hnm)]; [by left|].
    right. exists line'. repeat split; auto. by right.
Qed.

Lemma find_labels_loop_bound (index : nat) (cur : N) (lines : list string)
    (lbls : gmap string N) (li : list nat) :
  (forall nm n, lbls !! nm = Some n -> (n <= cur + N.of_nat (count_nonlabel lines))%N) ->
  forall nm n, (find_labels_loop index cur lines lbls li).1 !! nm = Some n ->
    (n <= cur + N.of_nat (count_nonlabel lines))%N.
Proof.
  revert index cur lbls li. induction lines as [|line lines IH]; intros index cur lbls li Hb;
    simpl; [exact Hb|].
  rewrite count_nonlabel_cons. unfold is_label_line.
  destruct (py_startswith "(" line) eqn:Hl; simpl.
  - apply IH. intros nm n Hn. destruct (decide (py_strip_ends line = nm)) as [<-|Hne].
    + rewrite lookup_insert_eq in Hn. injection Hn as <-. lia.
    + rewrite lookup_insert_ne in Hn by exact Hne. pose proof (Hb nm n Hn).
      rewrite count_nonlabel_cons in H. unfold is_label_line in H. rewrite Hl in H. simpl in H. lia.
  - intros nm n Hn.
    assert (Hb' : forall nm n, lbls !! nm = Some n ->
                   (n <= (cur + 1) + N.of_nat (count_nonlabel lines))%N).
    { intros nm' n' Hn'. pose proof (Hb nm' n' Hn').
      rewrite count_nonlabel_cons in H. unfold is_label_line in H. rewrite Hl in H. simpl in H. lia. }
    pose proof (IH _ _ _ _ Hb' nm n Hn). lia.
Qed.

(** X3.  After the label pass a name is bound in the label table exactly
    when it was bound before or some line [(name)] declares it. *)
Theorem find_labels_domain (st : Asm) (nm : string) :
  is_Some (labels (find_labels st) !! nm) <->
  is_Some (labels st !! nm) \/
  exists line, line ∈ assembly_code st /\ is_label_line line = true /\ py_strip_ends line = nm.
Proof.
  rewrite find_labels_labels. split.
  - intros [n Hn]. destruct (find_labels_loop_origin _ _ _ _ _ _ _ Hn) as [H|H].
    + left. by exists n.
    + by right.
  - intros [H | (line & Hin & Hlab & <-)].
    + by apply find_labels_loop_some.
    + by apply find_labels_loop_declared.
Qed.

(** X4.  Starting from an empty label table, as the constructor does,
    every label value is at most the number of instructions left after
    the label pass: a label names an instruction of the program, or the
    end of the program when it is the last line. *)
Theorem find_labels_values_bounded (st : Asm) (nm : string) (n : N) :
  labels st = ∅ ->
  labels (find_labels st) !! nm = Some n ->
  (n <= N.of_nat (length (assembly_code (find_labels st))))%N.
Proof.
  intros H0 Hn. rewrite find_labels_labels in Hn. rewrite find_labels_code.
  change (length (filter _ _)) with (count_nonlabel (assembly_code st)).
  rewrite H0 in Hn. apply (find_labels_loop_bound 0 0%N (assembly_code st) ∅ [] ) in Hn; [lia|].
  intros nm' n' Hn'. by rewrite lookup_empty in Hn'.
Qed.

Lemma find_labels_values_bounded_witness :
  exists n, labels (mkAsm ["(END)"; "@END"; "0;JMP"] [] [] ∅ ∅) = ∅ /\
  labels (find_labels (mkAsm ["(END)"; "@END"; "0;JMP"] [] [] ∅ ∅)) !! "END" = Some n /\
  (n <= N.of_nat (length (assembly_code (find_labels (mkAsm ["(END)"; "@END"; "0;JMP"] [] [] ∅ ∅)))))%N.
Proof.
  exists 0%N. split; [reflexivity|]. split; [vm_compute; reflexivity|].
  apply (find_labels_values_bounded _ "END"); [reflexivity | vm_compute; reflexivity].
Defined.

(* ------------------------------------------------------------------- *)
(** ** Resolution of address operands in the pipeline *)









(* ------------------------------------------------------------------- *)
(** ** Splitting of compute lines *)

Lemma index_char_cons (x y : ascii) (t : string) :
  index 0 (String x "") (String y t) =
    if Ascii.ascii_dec x y then Some 0
    else match index 0 (String x "") t with Some n => Some (S n) | None => None end.
Proof.
  rewrite index_0_cons.
  change (String.prefix (String x "") (String y t))
    with (if Ascii.ascii_dec x y then String.prefix "" t else false).
  destruct (Ascii.ascii_dec x y); [destruct t; reflexivity | reflexivity].
Qed.

Lemma index_char_app (x : ascii) (s t : string) :
  count_char x s = 0 ->
  index 0 (String x "") (s ++ t) =
    match index 0 (String x "") t with Some n => Some (String.length s + n) | None => None end.
Proof.
  induction s as [|y s IH]; intros H.
  - rewrite string_app_nil. by destruct (index 0 (String x "") t).
  - simpl in H. destruct (Ascii.ascii_dec x y) as [|Hne]; [lia|].
    rewrite string_app_cons, index_char_cons.
    destruct (Ascii.ascii_dec x y); [contradiction|]. rewrite IH by exact H.
    by destruct (index 0 (String x "") t).
Qed.

Lemma index_char_absent (x : ascii) (s : string) :
  count_char x s = 0 -> index 0 (String x "") s = None.
Proof.
  intros H. pose proof (index_char_app x s "" H) as E. rewrite string_app_nil_r in E.
  rewrite E. destruct x; reflexivity.
Qed.

Lemma substring_app_l (s t : string) : substring 0 (String.length s) (s ++ t) = s.
Proof.
  induction s as [|c s IH]; [rewrite string_app_nil; by destruct t|].
  rewrite string_app_cons. simpl. by rewrite IH.
Qed.

Lemma substring_app_r (s t : string) (k m : nat) :
  substring (String.length s + k) m (s ++ t) = substring k m t.
Proof.
  induction s as [|c s IH]; [by rewrite string_app_nil|].
  rewrite string_app_cons. simpl. exact IH.
Qed.

Lemma Z_of_nat_not_minus_one (n : nat) : (Z.of_nat n =? -1)%Z = false.
Proof. apply Z.eqb_neq. lia. Qed.

(** The four branches of [build_intermediary] for a compute line, read
    off the two [find] results. *)
Lemma parse_line_shape (lbls : gmap string N) (vars : gmap string pyval) (line : string)
    (od oj : option nat) :
  py_startswith "@" line = false -> py_find "=" line = od -> py_find ";" line = oj ->
  parse_line lbls vars line = Some (Some
    match od, oj with
    | None, None => InsC None line None
    | Some i, None => InsC (Some (py_slice line 0 i)) (py_slice_from line (i + 1)) None
    | None, Some k => InsC None (py_slice line 0 k) (Some (py_slice_from line (k + 1)))
    | Some i, Some k => InsC (Some (py_slice line 0 i)) (py_slice line (i + 1) k)
                             (Some (py_slice_from line (k + 1)))
    end).
Proof.
  intros Hat <- <-. unfold parse_line, py_find_z. rewrite Hat. cbv zeta.
  destruct (py_find "=" line) as [i|], (py_find ";" line) as [k|];
    rewrite ?Z_of_nat_not_minus_one, ?Nat2Z.id; reflexivity.
Qed.

Lemma sep_free_counts (s : string) :
  sep_free s = true -> count_char "=" s = 0 /\ count_char ";" s = 0.
Proof. unfold sep_free. intros H. apply andb_prop in H as [H1 H2]. apply Nat.eqb_eq in H1, H2. auto. Qed.

(** X6.  The split of a compute line inverts its rendering: tokens free
    of [=] and [;], joined as [dest=comp;jump] with the parts that are
    present, parse back to the same dest, comp and jump. *)
Theorem parse_compute_roundtrip (lbls : gmap string N) (vars : gmap string pyval)
    (d : option string) (c : string) (j : option string) :
  sep_free c = true ->
  from_option sep_free true d = true ->
  from_option sep_free true j = true ->
  py_startswith "@" (render_compute d c j) = false ->
  parse_line lbls vars (render_compute d c j) = Some (Some (InsC d c j)).
Proof.
  intros Hc Hd Hj Hat. destruct (sep_free_counts c Hc) as [Hce Hcj].
  destruct d as [d|], j as [j|]; simpl in Hd, Hj, Hat |- *.
  - destruct (sep_free_counts d Hd) as [Hde Hdj]. destruct (sep_free_counts j Hj) as [Hje Hjj].
    rewrite !string_app_cons, !string_app_nil in *.
    rewrite (parse_line_shape lbls vars _ (Some (String.length d))
               (Some (String.length d + S (String.length c + 0))) Hat).
    + unfold py_slice, py_slice_from. rewrite Nat.sub_0_r, substring_app_l.
      rewrite string_app_length. simpl String.length.
      rewrite string_app_length. simpl String.length.
      replace (String.length d + S (String.length c + 0) - (String.length d + 1))
        with (String.length c) by lia.
      replace (String.length d + 1) with (String.length d + 1) by reflexivity.
      rewrite substring_app_r. simpl. rewrite substring_app_l.
      replace (String.length d + S (String.length c + 0) + 1)
        with (String.length d + S (String.length c + 1)) by lia.
      replace (String.length d + S (String.length c + S (String.length j)) -
               (String.length d + S (String.length c + 1))) with (String.length j) by lia.
      rewrite substring_app_r. simpl. rewrite substring_app_r. simpl.
      by rewrite substring_0_length.
    + unfold py_find. rewrite index_char_app by exact Hde. rewrite index_char_cons.
      destruct (Ascii.ascii_dec "=" "="); [|congruence]. f_equal. lia.
    + unfold py_find. rewrite index_char_app by exact Hdj. rewrite index_char_cons.
      destruct (Ascii.ascii_dec ";" "="); [discriminate|].
      rewrite index_char_app by exact Hcj. rewrite index_char_cons.
      destruct (Ascii.ascii_dec ";" ";"); [|congruence]. reflexivity.
  - destruct (sep_free_counts d Hd) as [Hde Hdj].
    rewrite !string_app_cons, !string_app_nil in *.
    rewrite (parse_line_shape lbls vars _ (Some (String.length d)) None Hat).
    + unfold py_slice, py_slice_from. rewrite Nat.sub_0_r, substring_app_l.
      rewrite string_app_length. simpl String.length.
      replace (String.length d + S (String.length c) - (String.length d + 1))
        with (String.length c) by lia.
      rewrite substring_app_r. simpl. by rewrite substring_0_length.
    + unfold py_find. rewrite index_char_app by exact Hde. rewrite index_char_cons.
      destruct (Ascii.ascii_dec "=" "="); [|congruence]. f_equal. lia.
    + unfold py_find. rewrite index_char_app by exact Hdj. rewrite index_char_cons.
      destruct (Ascii.ascii_dec ";" "="); [discriminate|].
      by rewrite index_char_absent by exact Hcj.
  - destruct (sep_free_counts j Hj) as [Hje Hjj].
    rewrite !string_app_cons, !string_app_nil in *.
    rewrite (parse_line_shape lbls vars _ None (Some (String.length c)) Hat).
    + unfold py_slice, py_slice_from. rewrite Nat.sub_0_r, substring_app_l.
      rewrite string_app_length. simpl String.length.
      replace (String.length c + S (String.length j) - (String.length c + 1))
        with (String.length j) by lia.
      rewrite substring_app_r. simpl. by rewrite substring_0_length.
    + unfold py_find. rewrite index_char_app by exact Hce. rewrite index_char_cons.
      destruct (Ascii.ascii_dec "=" ";"); [discriminate|].
      by rewrite index_char_absent by exact Hje.
    + unfold py_find. rewrite index_char_app by exact Hcj. rewrite index_char_cons.
      destruct (Ascii.ascii_dec ";" ";"); [|congruence]. f_equal. lia.
  - rewrite (parse_line_shape lbls vars c None None Hat); [reflexivity| |].
    + unfold py_find. by apply index_char_absent.
    + unfold py_find. by apply index_char_absent.
Qed.

Lemma parse_compute_roundtrip_witness :
  sep_free "D+1" = true /\ from_option sep_free true (Some "AM") = true /\
  from_option sep_free true (Some "JGT") = true /\
  py_startswith "@" (render_compute (Some "AM") "D+1" (Some "JGT")) = false /\
  parse_line ∅ ∅ (render_compute (Some "AM") "D+1" (Some "JGT")) =
    Some (Some (InsC (Some "AM") "D+1" (Some "JGT"))).
Proof.
  split; [reflexivity|]. split; [reflexivity|]. split; [reflexivity|]. split; [reflexivity|].
  apply parse_compute_roundtrip; reflexivity.
Defined.

(* ------------------------------------------------------------------- *)
(** ** Where the pipeline can fail *)





Lemma assemble_ins_none (i : instr) :
  assemble_ins i = None <-> exists d c j, i = InsC d c j /\ unknown_token d c j.
Proof.
  unfold unknown_token. destruct i as [n|d c j]; unfold assemble_ins.
  - split; [discriminate|]. intros (d & c & j & H & _). discriminate.
  - destruct (dict_get dest_table d) eqn:Ed, (dict_get comp_table (Some c)) eqn:Ec,
      (dict_get jump_table j) eqn:Ej;
      (split; [intros H; try discriminate; eauto 10
              | intros (d' & c' & j' & Heq & H); injection Heq as <- <- <-; try reflexivity;
                destruct H as [H|[H|H]]; congruence]).
Qed.

Lemma assemble_loop_none (ins : list instr) (acc : list string) :
  assemble_loop ins acc = None <-> exists i, i ∈ ins /\ assemble_ins i = None.
Proof.
  revert acc. induction ins as [|i ins IH]; intros acc; simpl.
  - split; [discriminate|]. intros (i & H & _). by apply not_elem_of_nil in H.
  - destruct (assemble_ins i) as [line|] eqn:E; simpl.
    + rewrite IH. split.
      * intros (i' & Hin & Hi'). exists i'. split; [by right | exact Hi'].
      * intros (i' & Hin & Hi'). apply elem_of_cons in Hin as [->|Hin]; [congruence|].
        eauto.
    + split; [intros _; exists i; split; [left | exact E] | reflexivity].
Qed.

(** X8.  [assemble] raises exactly when some compute instruction has a
    dest, comp or jump mnemonic missing from its table; address
    instructions never make it fail. *)
Theorem assemble_fails_iff (st : Asm) :
  assemble st = None <->
  exists d c j, InsC d c j ∈ intermediary_code st /\ unknown_token d c j.
Proof.
  unfold assemble. transitivity (assemble_loop (intermediary_code st) [] = None).
  - destruct (assemble_loop (intermediary_code st) []); simpl; split; congruence.
  - rewrite assemble_loop_none. split.
    + intros (i & Hin & Hi). apply assemble_ins_none in Hi as (d & c & j & -> & Hu). eauto.
    + intros (d & c & j & Hin & Hu). exists (InsC d c j). split; [exact Hin|].
      apply assemble_ins_none. eauto.
Qed.


Lemma Forall2_elem_l {A B} (P : A -> B -> Prop) (xs : list A) (ys : list B) (x : A) :
  Forall2 P xs ys -> x ∈ xs -> exists y, y ∈ ys /\ P x y.
Proof.
  induction 1 as [|x' y xs ys Hxy Hrest IH]; intros Hx; [by apply not_elem_of_nil in Hx|].
  apply elem_of_cons in Hx as [->|Hx].
  - exists y. split; [left | exact Hxy].
  - destruct (IH Hx) as (y' & Hy' & HP). exists y'. split; [by right | exact HP].
Qed.



(* ------------------------------------------------------------------- *)
(** ** The encoder is one-to-one *)

Lemma string_app_cancel (s1 s2 t1 t2 : string) :
  String.length s1 = String.length s2 -> s1 ++ t1 = s2 ++ t2 -> s1 = s2 /\ t1 = t2.
Proof.
  revert s2. induction s1 as [|a s1 IH]; intros s2 Hl H; destruct s2 as [|b s2]; try discriminate.
  - by rewrite !string_app_nil in H.
  - rewrite !string_app_cons in H. injection H as -> H. simpl in Hl.
    destruct (IH s2 ltac:(lia) H) as [-> ->]. auto.
Qed.

Lemma table_values_injective (t : list (option string * string)) (k1 k2 : option string) (v : string) :
  NoDup t.*2 -> (k1, v) ∈ t -> (k2, v) ∈ t -> k1 = k2.
Proof.
  intros Hnd H1 H2. apply list_elem_of_lookup in H1 as [i1 H1], H2 as [i2 H2].
  assert (E1 : t.*2 !! i1 = Some v) by (rewrite list_lookup_fmap, H1; reflexivity).
  assert (E2 : t.*2 !! i2 = Some v) by (rewrite list_lookup_fmap, H2; reflexivity).
  pose proof (NoDup_lookup _ _ _ _ Hnd E1 E2) as ->. congruence.
Qed.

Lemma comp_table_some_NoDup : NoDup (some_keys comp_table).*2.
Proof. apply (bool_decide_unpack _). vm_compute. reflexivity. Qed.

Lemma dest_table_NoDup : NoDup dest_table.*2.
Proof. apply (bool_decide_unpack _). vm_compute. reflexivity. Qed.

Lemma jump_table_NoDup : NoDup jump_table.*2.
Proof. apply (bool_decide_unpack _). vm_compute. reflexivity. Qed.

Lemma comp_lookup_injective (c1 c2 : string) (v : string) :
  dict_get comp_table (Some c1) = Some v -> dict_get comp_table (Some c2) = Some v -> c1 = c2.
Proof.
  intros H1 H2. apply dict_get_elem in H1, H2.
  assert (E : Some c1 = Some c2); [|by injection E].
  apply (table_values_injective (some_keys comp_table) _ _ v comp_table_some_NoDup);
    unfold some_keys; apply list_elem_of_filter; (split; [simpl; discriminate | assumption]).
Qed.

Lemma assemble_ins_C_shape (d : option string) (c : string) (j : option string) (line : string) :
  assemble_ins (InsC d c j) = Some line ->
  exists vd vc vj, dict_get dest_table d = Some vd /\ dict_get comp_table (Some c) = Some vc /\
    dict_get jump_table j = Some vj /\ line = String "1" (String "1" (String "1" (vc ++ vd ++ vj))).
Proof.
  unfold assemble_ins. intros H.
  destruct (dict_get dest_table d) as [vd|] eqn:Ed;
    destruct (dict_get comp_table (Some c)) as [vc|] eqn:Ec;
    destruct (dict_get jump_table j) as [vj|] eqn:Ej; simpl in H; try discriminate.
  injection H as <-. exists vd, vc, vj. do 3 (split; [reflexivity|]).
  rewrite !string_app_cons, string_app_nil. reflexivity.
Qed.

(** X10.  On instructions whose operands fit in 15 bits the encoder is
    one-to-one: two instructions encoded to the same line are equal. *)
Theorem assemble_ins_injective (i1 i2 : instr) (line : string) :
  in_range i1 -> in_range i2 ->
  assemble_ins i1 = Some line -> assemble_ins i2 = Some line -> i1 = i2.
Proof.
  intros R1 R2 H1 H2. destruct i1 as [n1|d1 c1 j1], i2 as [n2|d2 c2 j2].
  - rewrite assemble_ins_A in H1, H2. rewrite <- H2 in H1. injection H1 as H.
    destruct (address_field n1 R1) as (_ & _ & V1). destruct (address_field n2 R2) as (_ & _ & V2).
    rewrite <- V1, <- V2, H. reflexivity.
  - rewrite assemble_ins_A in H1. apply assemble_ins_C_shape in H2 as (vd & vc & vj & _ & _ & _ & ->).
    discriminate.
  - rewrite assemble_ins_A in H2. apply assemble_ins_C_shape in H1 as (vd & vc & vj & _ & _ & _ & ->).
    discriminate.
  - apply assemble_ins_C_shape in H1 as (vd1 & vc1 & vj1 & Ed1 & Ec1 & Ej1 & ->).
    apply assemble_ins_C_shape in H2 as (vd2 & vc2 & vj2 & Ed2 & Ec2 & Ej2 & H).
    injection H as H.
    destruct (table_lookup_width _ _ _ _ comp_table_widths Ec1) as [Lc1 _].
    destruct (table_lookup_width _ _ _ _ comp_table_widths Ec2) as [Lc2 _].
    destruct (table_lookup_width _ _ _ _ dest_table_widths Ed1) as [Ld1 _].
    destruct (table_lookup_width _ _ _ _ dest_table_widths Ed2) as [Ld2 _].
    destruct (string_app_cancel vc1 vc2 _ _ ltac:(congruence) H) as [<- H'].
    destruct (string_app_cancel vd1 vd2 _ _ ltac:(congruence) H') as [<- <-].
    rewrite (comp_lookup_injective c1 c2 vc1 Ec1 Ec2).
    apply dict_get_elem in Ed1, Ed2, Ej1, Ej2.
    rewrite (table_values_injective dest_table d1 d2 vd1 dest_table_NoDup Ed1 Ed2).
    rewrite (table_values_injective jump_table j1 j2 vj1 jump_table_NoDup Ej1 Ej2).
    reflexivity.
Qed.

Lemma assemble_ins_injective_witness :
  in_range (InsA 21) /\ in_range (InsA 21) /\
  assemble_ins (InsA 21) = Some "0000000000010101" /\ assemble_ins (InsA 21) = Some "0000000000010101" /\
  InsA 21 = InsA 21.
Proof.
  assert (R : in_range (InsA 21)) by (simpl; lia).
  assert (E : assemble_ins (InsA 21) = Some "0000000000010101") by (vm_compute; reflexivity).
  split; [exact R|]. split; [exact R|]. split; [exact E|]. split; [exact E|].
  exact (assemble_ins_injective (InsA 21) (InsA 21) "0000000000010101" R R E E).
Defined.

(* ------------------------------------------------------------------- *)
(** ** Malformed compute lines *)

Lemma count_char_app (x : ascii) (s t : string) :
  count_char x (s ++ t) = count_char x s + count_char x t.
Proof.
  induction s as [|c s IH]; [reflexivity|]. rewrite string_app_cons. simpl. rewrite IH. lia.
Qed.

Lemma substring_split (s : string) (a m n : nat) :
  a + m <= String.length s ->
  substring a m s ++ substring (a + m) n s = substring a (m + n) s.
Proof.
  revert a m. induction s as [|c s IH]; intros a m H.
  - simpl in H. assert (a = 0) as -> by lia. assert (m = 0) as -> by lia. reflexivity.
  - destruct a as [|a].
    + destruct m as [|m]; [reflexivity|]. simpl in H |- *.
      rewrite string_app_cons. f_equal. apply (IH 0 m). lia.
    + simpl in H |- *. apply IH. lia.
Qed.

Lemma substring_split' (s : string) (a m n p q : nat) :
  a + m <= String.length s -> q = a + m -> p = m + n ->
  substring a m s ++ substring q n s = substring a p s.
Proof. intros H -> ->. by apply substring_split. Qed.

Lemma substring_full (s : string) (n : nat) : n = String.length s -> substring 0 n s = s.
Proof. intros ->. apply substring_0_length. Qed.

Lemma index_char_none_count (x : ascii) (s : string) :
  index 0 (String x "") s = None -> count_char x s = 0.
Proof.
  induction s as [|c s IH]; [reflexivity|]. rewrite index_char_cons. simpl.
  destruct (Ascii.ascii_dec x c); [discriminate|].
  destruct (index 0 (String x "") s); [discriminate|]. intros _. by rewrite IH.
Qed.

Lemma index_char_some (x : ascii) (s : string) (i : nat) :
  index 0 (String x "") s = Some i ->
  i < String.length s /\ substring i 1 s = String x "" /\ count_char x (substring 0 i s) = 0.
Proof.
  revert i. induction s as [|c s IH]; intros i H; [destruct x; discriminate|].
  rewrite index_char_cons in H. destruct (Ascii.ascii_dec x c) as [<-|Hne].
  - injection H as <-. simpl. repeat split; [lia | by destruct s].
  - destruct (index 0 (String x "") s) as [i'|] eqn:E; [|discriminate]. injection H as <-.
    destruct (IH i' eq_refl) as (Hl & Hc & Hn). simpl. repeat split; [lia | exact Hc|].
    destruct (Ascii.ascii_dec x c); [contradiction|]. exact Hn.
Qed.

(** No key of the three tables contains a separator. *)
Lemma table_keys_sep_free (t : list (option string * string)) (k : string) (v : string) :
  Forall (fun kv => from_option sep_free true kv.1 = true) t ->
  dict_get t (Some k) = Some v -> sep_free k = true.
Proof.
  intros Ht H. apply dict_get_elem in H. rewrite Forall_forall in Ht. exact (Ht _ H).
Qed.

Lemma comp_table_keys : Forall (fun kv => from_option sep_free true kv.1 = true) comp_table.
Proof. repeat constructor. Qed.

Lemma dest_table_keys : Forall (fun kv => from_option sep_free true kv.1 = true) dest_table.
Proof. repeat constructor. Qed.

Lemma jump_table_keys : Forall (fun kv => from_option sep_free true kv.1 = true) jump_table.
Proof. repeat constructor. Qed.

Lemma sep_free_count_pos (s : string) :
  (0 < count_char "=" s \/ 0 < count_char ";" s)%nat -> sep_free s = false.
Proof.
  intros H. unfold sep_free. destruct (count_char "=" s), (count_char ";" s); simpl; lia || reflexivity.
Qed.

(** A compute line matching none of the four shapes leaves a separator
    in one of the three fields the parser cuts out of it. *)
Lemma malformed_fields (lbls : gmap string N) (vars : gmap string pyval) (line : string)
    (d : option string) (c : string) (j : option string) :
  py_startswith "@" line = false -> matches_shape line = false ->
  parse_line lbls vars line = Some (Some (InsC d c j)) ->
  from_option sep_free true d = false \/ sep_free c = false \/ from_option sep_free true j = false.
Proof.
  intros Hat Hm Hp.
  destruct (py_find "=" line) as [i|] eqn:Ei, (py_find ";" line) as [k|] eqn:Ek;
    rewrite (parse_line_shape lbls vars line _ _ Hat Ei Ek) in Hp; injection Hp as <- <- <-;
    unfold py_find in Ei, Ek; unfold py_slice, py_slice_from; rewrite ?Nat.sub_0_r; simpl.
  - destruct (index_char_some _ _ _ Ei) as (Hi & Hi1 & Hi0).
    destruct (index_char_some _ _ _ Ek) as (Hk & Hk1 & Hk0).
    assert (Hik : i <> k) by (intros ->; rewrite Hi1 in Hk1; discriminate).
    destruct (Nat.lt_ge_cases k i) as [Hlt|Hge].
    + (* the ';' lies inside the dest part *)
      left. apply sep_free_count_pos. right.
      assert (E1 : substring 0 k line ++ substring (0 + k) (i - k) line = substring 0 (k + (i - k)) line)
        by (apply substring_split; lia).
      assert (E2 : substring k 1 line ++ substring (k + 1) (i - k - 1) line = substring k (1 + (i - k - 1)) line)
        by (apply substring_split; lia).
      replace (k + (i - k)) with i in E1 by lia. replace (1 + (i - k - 1)) with (i - k) in E2 by lia.
      change (0 + k) with k in E1.
      rewrite <- E1, <- E2, !count_char_app, Hk1. simpl. lia.
    + assert (Hlk : i < k) by lia. clear Hge Hik.
      assert (Hsplit : line = substring 0 i line ++ (substring i 1 line ++
                 (substring (i + 1) (k - (i + 1)) line ++ (substring k 1 line ++
                  substring (k + 1) ((String.length line) - (k + 1)) line)))).
      { rewrite (substring_split' line k 1 ((String.length line) - (k + 1)) ((String.length line) - k) (k + 1)) by lia.
        rewrite (substring_split' line (i + 1) (k - (i + 1)) ((String.length line) - k) ((String.length line) - (i + 1)) k) by lia.
        rewrite (substring_split' line i 1 ((String.length line) - (i + 1)) ((String.length line) - i) (i + 1)) by lia.
        rewrite (substring_split' line 0 i ((String.length line) - i) (String.length line) i) by lia.
        symmetry. apply substring_full. reflexivity. }
      assert (Hk0' : count_char ";" (substring 0 k line) = 0) by exact Hk0.
      assert (E1 : substring 0 i line ++ substring (0 + i) (k - i) line = substring 0 (i + (k - i)) line)
        by (apply substring_split; lia).
      assert (E2 : substring i 1 line ++ substring (i + 1) (k - (i + 1)) line = substring i (1 + (k - (i + 1))) line)
        by (apply substring_split; lia).
      replace (i + (k - i)) with k in E1 by lia. replace (1 + (k - (i + 1))) with (k - i) in E2 by lia.
      change (0 + i) with i in E1.
      rewrite <- E1, <- E2 in Hk0'.
      rewrite !count_char_app, Hi1 in Hk0'. simpl in Hk0'.
      assert (He := f_equal (count_char "=") Hsplit).
      assert (Hs := f_equal (count_char ";") Hsplit).
      rewrite !count_char_app, Hi1, Hk1, Hi0 in He. rewrite !count_char_app, Hi1, Hk1 in Hs.
      simpl in He, Hs.
      unfold matches_shape, py_find in Hm; cbv zeta in Hm. rewrite Ei, Ek in Hm.
      destruct (count_char "=" (substring (i + 1) (k - (i + 1)) line)) as [|ce] eqn:Ec.
      * destruct (count_char "=" (substring (k + 1) ((String.length line) - (k + 1)) line)) as [|je] eqn:Ej.
        -- destruct (count_char ";" (substring (k + 1) ((String.length line) - (k + 1)) line)) as [|js] eqn:Ejs.
           ++ exfalso. assert (Hne1 : count_char "=" line = 1) by lia.
              assert (Hns1 : count_char ";" line = 1) by lia.
              rewrite Hne1, Hns1 in Hm. apply Nat.ltb_ge in Hm. lia.
           ++ right. right. apply sep_free_count_pos. right. lia.
        -- right. right. apply sep_free_count_pos. left. lia.
      * right. left. apply sep_free_count_pos. left. lia.
  - destruct (index_char_some _ _ _ Ei) as (Hi & Hi1 & Hi0).
    pose proof (index_char_none_count _ _ Ek) as Hk0.
    assert (Hsplit : line = substring 0 i line ++ (substring i 1 line ++
                              substring (i + 1) ((String.length line) - (i + 1)) line)).
    { rewrite (substring_split' line i 1 ((String.length line) - (i + 1)) ((String.length line) - i) (i + 1)) by lia.
      rewrite (substring_split' line 0 i ((String.length line) - i) (String.length line) i) by lia.
      symmetry. apply substring_full. reflexivity. }
    assert (He := f_equal (count_char "=") Hsplit).
    rewrite !count_char_app, Hi1, Hi0 in He. simpl in He.
    unfold matches_shape, py_find in Hm; cbv zeta in Hm. rewrite Hk0 in Hm.
    destruct (count_char "=" (substring (i + 1) ((String.length line) - (i + 1)) line)) as [|ce] eqn:Ec.
    + exfalso. rewrite He in Hm. discriminate.
    + right. left. apply sep_free_count_pos. left. lia.
  - pose proof (index_char_none_count _ _ Ei) as Hi0.
    destruct (index_char_some _ _ _ Ek) as (Hk & Hk1 & Hk0).
    assert (Hsplit : line = substring 0 k line ++ (substring k 1 line ++
                              substring (k + 1) ((String.length line) - (k + 1)) line)).
    { rewrite (substring_split' line k 1 ((String.length line) - (k + 1)) ((String.length line) - k) (k + 1)) by lia.
      rewrite (substring_split' line 0 k ((String.length line) - k) (String.length line) k) by lia.
      symmetry. apply substring_full. reflexivity. }
    assert (Hs := f_equal (count_char ";") Hsplit).
    rewrite !count_char_app, Hk1, Hk0 in Hs. simpl in Hs.
    unfold matches_shape, py_find in Hm; cbv zeta in Hm. rewrite Hi0 in Hm.
    destruct (count_char ";" (substring (k + 1) ((String.length line) - (k + 1)) line)) as [|cs] eqn:Ec.
    + exfalso. rewrite Hs in Hm. discriminate.
    + right. right. apply sep_free_count_pos. right. lia.
  - exfalso. unfold matches_shape, py_find in Hm; cbv zeta in Hm.
    rewrite (index_char_none_count _ _ Ei), (index_char_none_count _ _ Ek) in Hm. discriminate.
Qed.

(** Such a line makes the encoder fail at a table lookup. *)
Lemma malformed_unknown (d : option string) (c : string) (j : option string) :
  from_option sep_free true d = false \/ sep_free c = false \/ from_option sep_free true j = false ->
  assemble_ins (InsC d c j) = None.
Proof.
  intros H. apply assemble_ins_none. exists d, c, j. split; [reflexivity|]. unfold unknown_token.
  destruct H as [H|[H|H]].
  - left. destruct d as [x|]; [|discriminate]. simpl in H.
    destruct (dict_get dest_table (Some x)) as [v|] eqn:E; [|reflexivity].
    apply table_keys_sep_free in E; [congruence | exact dest_table_keys].
  - right. left. destruct (dict_get comp_table (Some c)) as [v|] eqn:E; [|reflexivity].
    apply table_keys_sep_free in E; [congruence | exact comp_table_keys].
  - right. right. destruct j as [x|]; [|discriminate]. simpl in H.
    destruct (dict_get jump_table (Some x)) as [v|] eqn:E; [|reflexivity].
    apply table_keys_sep_free in E; [congruence | exact jump_table_keys].
Qed.

(* =================================================================== *)
(** * The claims *)

(** C1 (corrected).  The parser never skips a line.  For every state:
    when [build_intermediary] succeeds it yields exactly one instruction
    per line, in order; when it raises, the line at fault is an address
    line (a compute line never raises); every compute line, whatever
    separators it contains, gives one compute instruction; and a compute
    line matching none of the four shapes leaves a separator in its
    dest, comp or jump field, so that the encoder then raises at a table
    lookup. *)
Theorem build_intermediary_one_per_line (st : Asm) :
  (forall st', build_intermediary st = Some st' ->
     Forall2 (fun l i => parse_line (labels st) (variables st) l = Some (Some i))
       (assembly_code st) (intermediary_code st')) /\
  (build_intermediary st = None ->
     exists l, l ∈ assembly_code st /\ py_startswith "@" l = true /\
               parse_line (labels st) (variables st) l = None) /\
  (forall l, py_startswith "@" l = false ->
     exists d c j, parse_line (labels st) (variables st) l = Some (Some (InsC d c j))) /\
  (forall l st', l ∈ assembly_code st -> py_startswith "@" l = false ->
     matches_shape l = false -> build_intermediary st = Some st' -> assemble st' = None).
Proof.
  assert (Hok : forall st', build_intermediary st = Some st' ->
     Forall2 (fun l i => parse_line (labels st) (variables st) l = Some (Some i))
       (assembly_code st) (intermediary_code st')).
  { intros st' Hb. unfold build_intermediary in Hb.
    destruct (build_intermediary_loop _ _ _ []) as [ins|] eqn:E; [|discriminate].
    injection Hb as <-. simpl.
    apply build_intermediary_loop_ok in E as (outs & -> & Hf). exact Hf. }
  split; [exact Hok|]. split; [|split].
  - unfold build_intermediary. intros Hb.
    assert (Hnone : forall lines acc,
      build_intermediary_loop (labels st) (variables st) lines acc = None ->
      exists l, l ∈ lines /\ parse_line (labels st) (variables st) l = None).
    { induction lines as [|l lines IH]; intros acc Hl; simpl in Hl; [discriminate|].
      destruct (parse_line (labels st) (variables st) l) as [[i|]|] eqn:E.
      - destruct (IH _ Hl) as (l' & Hin & Hp). exists l'. split; [by right | exact Hp].
      - destruct (IH _ Hl) as (l' & Hin & Hp). exists l'. split; [by right | exact Hp].
      - exists l. split; [left | exact E]. }
    destruct (build_intermediary_loop _ _ _ []) as [ins|] eqn:E; [discriminate|].
    destruct (Hnone _ _ E) as (l & Hin & Hp). exists l. split; [exact Hin|]. split; [|exact Hp].
    destruct (py_startswith "@" l) eqn:Hat; [reflexivity|].
    destruct (parse_line_compute (labels st) (variables st) l Hat) as (d & c & j & E').
    congruence.
  - intros l Hat. exact (parse_line_compute (labels st) (variables st) l Hat).
  - intros l st' Hin Hat Hm Hb.
    destruct (Forall2_elem_l _ _ _ _ (Hok st' Hb) Hin) as (i & Hi & Hp).
    destruct (parse_line_compute (labels st) (variables st) l Hat) as (d & c & j & E).
    rewrite E in Hp. injection Hp as <-.
    pose proof (malformed_unknown d c j (malformed_fields _ _ _ d c j Hat Hm E)) as Hu.
    unfold assemble.
    assert (Hn : assemble_loop (intermediary_code st') [] = None).
    { apply assemble_loop_none. exists (InsC d c j). split; [exact Hi | exact Hu]. }
    rewrite Hn. reflexivity.
Qed.

(** On the program [@5] / [0;JMP=D] the parser succeeds, and the
    malformed second line makes the encoder raise. *)
Lemma build_intermediary_one_per_line_witness :
  exists st', build_intermediary (after_symbols predefined_symbols ["@5"; "0;JMP=D"]) = Some st' /\
    assemble st' = None.
Proof.
  destruct (build_intermediary_one_per_line (after_symbols predefined_symbols ["@5"; "0;JMP=D"]))
    as (_ & _ & _ & H4).
  destruct (build_intermediary (after_symbols predefined_symbols ["@5"; "0;JMP=D"])) as [st'|] eqn:E;
    [|vm_compute in E; discriminate].
  exists st'. split; [reflexivity|].
  assert (Hc : assembly_code (after_symbols predefined_symbols ["@5"; "0;JMP=D"]) = ["@5"; "0;JMP=D"])
    by (vm_compute; reflexivity).
  apply (H4 "0;JMP=D" st'); [rewrite Hc; right; left | reflexivity | reflexivity | reflexivity].
Defined.

(** C1 counterexample.  ["0;JMP=D"] is a compute line matching none of
    the four shapes (its [';'] comes before its ['=']), yet the parser
    does not skip it: it becomes one compute instruction. *)
Lemma build_intermediary_malformed_kept :
  py_startswith "@" "0;JMP=D" = false /\ matches_shape "0;JMP=D" = false /\
  (intermediary_code <$> build_intermediary (after_symbols predefined_symbols ["0;JMP=D"]))
  = Some [InsC (Some "0;JMP") "" (Some "JMP=D")].
Proof. split; [reflexivity|]. split; [reflexivity|]. vm_compute. reflexivity. Qed.




(** C4 (corrected).  For every program the assembler runs to the end on,
    and whose address operands all lie in 0..32767, every output line is
    16 characters of ['0'] / ['1'] and there is one line per input
    statement that is not a label declaration, comment or blank. *)
Theorem output_lines_shape (code : list string) (st : Asm) :
  Assembler code = Some st ->
  (forall n, InsA n ∈ intermediary_code st -> (n <= 32767)%N) ->
  Forall (fun l => String.length l = 16 /\ is_bits l = true) (machine_code st) /\
  length (machine_code st) = count_statements code.
Proof.
  intros H Hr. apply Assembler_with_ok in H as (ins & Eb & Ea & Ei).
  apply build_intermediary_loop_ok in Eb as (outs & Ho & Hb). simpl in Ho. subst outs.
  apply assemble_loop_ok in Ea as (lines & Hl & Ha). simpl in Hl. rewrite Hl.
  rewrite Ei in Hr. split.
  - apply (Forall2_Forall_r _ _ _ _ Ha). intros i line Hin Hi.
    apply (assemble_ins_line i line Hi). intros n ->. by apply Hr.
  - apply Forall2_length in Ha, Hb. rewrite <- Ha, <- Hb, after_symbols_code.
    apply count_statements_filter.
Qed.

Lemma output_lines_shape_witness :
  exists st, Assembler ["(START)"; "@START"; "0;JMP // loop"; ""] = Some st /\
  (forall n, InsA n ∈ intermediary_code st -> (n <= 32767)%N) /\
  Forall (fun l => String.length l = 16 /\ is_bits l = true) (machine_code st) /\
  length (machine_code st) = count_statements ["(START)"; "@START"; "0;JMP // loop"; ""].
Proof.
  destruct (Assembler ["(START)"; "@START"; "0;JMP // loop"; ""]) as [st|] eqn:E;
    [|vm_compute in E; discriminate].
  assert (Hr : forall n, InsA n ∈ intermediary_code st -> (n <= 32767)%N).
  { vm_compute in E. injection E as <-. simpl. intros n Hn.
    apply elem_of_cons in Hn as [Hn|Hn]; [injection Hn as ->; lia|].
    apply elem_of_cons in Hn as [Hn|Hn]; [discriminate|]. by apply not_elem_of_nil in Hn. }
  exists st. split; [reflexivity|]. split; [exact Hr|].
  exact (output_lines_shape _ st E Hr).
Defined.

(** C4 counterexample.  [@32768] is assembled to a 17-character line. *)
Lemma output_line_too_long :
  (machine_code <$> Assembler ["@32768"]) = Some ["01000000000000000"] /\
  String.length "01000000000000000" = 17.
Proof. split; [vm_compute; reflexivity | reflexivity]. Qed.

(** C5.  For [0 <= n <= 32767], encoding the address instruction with
    operand [n] gives ['0'] followed by 15 binary digits whose value,
    read most significant first, is [n]. *)
Theorem address_encoding_roundtrip (n : N) :
  (n <= 32767)%N ->
  exists s, assemble_ins (InsA n) = Some (String "0" s) /\
            String.length s = 15 /\ is_bits s = true /\ bits_value s = n.
Proof.
  intros Hn. rewrite assemble_ins_A. eexists. split; [reflexivity|].
  apply address_field, Hn.
Qed.

Lemma address_encoding_roundtrip_witness :
  (21 <= 32767)%N /\
  exists s, assemble_ins (InsA 21) = Some (String "0" s) /\
            String.length s = 15 /\ is_bits s = true /\ bits_value s = 21%N.
Proof. split; [lia | apply address_encoding_roundtrip; lia]. Defined.

(** C3 (corrected).  Operand resolution looks in the variable table
    first: a symbol bound there resolves to that binding even when the
    label table binds it too. *)
Theorem resolution_variables_first (lbls : gmap string N) (vars : gmap string pyval)
    (s : string) (v : pyval) :
  vars !! s = Some v -> is_Some (lbls !! s) ->
  parse_line lbls vars ("@" ++ s) = (n ← py_int v; Some (Some (InsA n))).
Proof. intros Hv _. by apply parse_line_variable. Qed.

Lemma resolution_variables_first_witness :
  (list_to_map predefined_symbols : gmap string pyval) !! "R3" = Some (PyStr "3") /\
  is_Some (({[ "R3" := 0%N ]} : gmap string N) !! "R3") /\
  parse_line {[ "R3" := 0%N ]} (list_to_map predefined_symbols) ("@" ++ "R3")
  = (n ← py_int (PyStr "3"); Some (Some (InsA n))).
Proof.
  assert (H1 : (list_to_map predefined_symbols : gmap string pyval) !! "R3" = Some (PyStr "3"))
    by (vm_compute; reflexivity).
  assert (H2 : is_Some (({[ "R3" := 0%N ]} : gmap string N) !! "R3"))
    by (eexists; vm_compute; reflexivity).
  split; [exact H1|]. split; [exact H2|].
  exact (resolution_variables_first _ _ _ _ H1 H2).
Defined.

(** C3 counterexample.  In [(R3)] / [@R3] the symbol [R3] is bound as
    label 0 and as the predefined [3]; the operand resolves to 3, not to
    its label binding 0. *)
Lemma resolution_label_not_first :
  labels (after_symbols predefined_symbols ["(R3)"; "@R3"]) !! "R3" = Some 0%N /\
  variables (after_symbols predefined_symbols ["(R3)"; "@R3"]) !! "R3" = Some (PyStr "3") /\
  parse_line (labels (after_symbols predefined_symbols ["(R3)"; "@R3"]))
    (variables (after_symbols predefined_symbols ["(R3)"; "@R3"])) "@R3"
  = Some (Some (InsA 3)).
Proof. split; [|split]; vm_compute; reflexivity. Qed.

(** C6 (corrected).  A label declaration at position [k] of the
    normalised lines whose name is not declared again later (for a
    redeclared label: its last declaration) is bound to the number of
    non-declaration lines before it, the index of the next real
    instruction.  Every use [@name], before or after the declaration,
    resolves to that index, except when the name is a predefined symbol:
    then it resolves to the predefined address. *)
Theorem label_binding_resolution (code : list string) (k : nat) (line : string) :
  let ls := assembly_code (remove_unnecessary (initial_state predefined_symbols code)) in
  let st := after_symbols predefined_symbols code in
  let idx := N.of_nat (count_nonlabel (take k ls)) in
  ls !! k = Some line -> is_label_line line = true ->
  (forall j line', k < j -> ls !! j = Some line' -> is_label_line line' = true ->
     py_strip_ends line' <> py_strip_ends line) ->
  labels st !! py_strip_ends line = Some idx /\
  exists n, label_use_value (list_to_map predefined_symbols) (py_strip_ends line) idx = Some n /\
  parse_line (labels st) (variables st) ("@" ++ py_strip_ends line) = Some (Some (InsA n)) /\
  (forall st' i, build_intermediary st = Some st' ->
     assembly_code st !! i = Some ("@" ++ py_strip_ends line) ->
     intermediary_code st' !! i = Some (InsA n)).
Proof.
  intros ls st idx Hk Hlab Hlast.
  assert (Hls : ls = filter (fun s => s <> "") (map strip_line code))
    by apply remove_unnecessary_code.
  assert (Hl : labels st !! py_strip_ends line = Some idx).
  { unfold st. rewrite after_symbols_labels, <- Hls.
    rewrite (find_labels_loop_last 0 0%N ls ∅ [] k line Hk Hlab Hlast). f_equal. }
  assert (Hv : variables st !! py_strip_ends line =
               (list_to_map predefined_symbols : gmap string pyval) !! py_strip_ends line).
  { unfold st. rewrite after_symbols_variables_lookup, index_of_not_elem; [reflexivity|].
    intros Hin. apply user_variables_elem in Hin as (_ & H & _). fold st in H. congruence. }
  assert (Hp : exists n, label_use_value (list_to_map predefined_symbols) (py_strip_ends line) idx = Some n /\
     parse_line (labels st) (variables st) ("@" ++ py_strip_ends line) = Some (Some (InsA n))).
  { unfold label_use_value.
    destruct ((list_to_map predefined_symbols : gmap string pyval) !! py_strip_ends line)
      as [v|] eqn:Hpre.
    - destruct (predefined_symbols_values _ _ Hpre) as [n Hn]. exists n. split; [exact Hn|].
      rewrite (parse_line_variable _ _ _ v Hv), Hn. reflexivity.
    - exists idx. split; [reflexivity|]. by apply parse_line_label. }
  destruct Hp as (n & Hn & Hp).
  split; [exact Hl|]. exists n. split; [exact Hn|]. split; [exact Hp|].
  intros st' i Hb Hi. unfold build_intermediary in Hb.
  destruct (build_intermediary_loop _ _ _ []) as [ins|] eqn:E; [|discriminate].
  injection Hb as <-. simpl.
  apply build_intermediary_loop_ok in E as (outs & -> & Hf).
  destruct (Forall2_lookup_l _ _ _ _ _ Hf Hi) as (y & Hy & Py).
  rewrite Hp in Py. injection Py as <-. exact Hy.
Qed.

Lemma label_binding_resolution_witness :
  let ls := assembly_code (remove_unnecessary (initial_state predefined_symbols ["@LOOP"; "(LOOP)"; "0;JMP"])) in
  let st := after_symbols predefined_symbols ["@LOOP"; "(LOOP)"; "0;JMP"] in
  let idx := N.of_nat (count_nonlabel (take 1 ls)) in
  labels st !! py_strip_ends "(LOOP)" = Some idx /\
  exists n, label_use_value (list_to_map predefined_symbols) (py_strip_ends "(LOOP)") idx = Some n /\
  parse_line (labels st) (variables st) ("@" ++ py_strip_ends "(LOOP)") = Some (Some (InsA n)) /\
  (forall st' i, build_intermediary st = Some st' ->
     assembly_code st !! i = Some ("@" ++ py_strip_ends "(LOOP)") ->
     intermediary_code st' !! i = Some (InsA n)).
Proof.
  apply (label_binding_resolution ["@LOOP"; "(LOOP)"; "0;JMP"] 1 "(LOOP)").
  - vm_compute. reflexivity.
  - reflexivity.
  - intros j l' Hj E. destruct j as [|[|[|j]]]; [lia|lia| |].
    + vm_compute in E. injection E as <-. vm_compute. discriminate.
    + vm_compute in E. discriminate.
Defined.

(** C6 counterexample.  A redeclared label keeps its last binding
    ([(LOOP)] at index 0 resolves to 1), and a label named like a
    predefined symbol resolves to the predefined address ([(R3)] at
    index 0 resolves to 3). *)
Lemma label_binding_not_first_or_predefined :
  parse_line (labels (after_symbols predefined_symbols ["(LOOP)"; "@LOOP"; "(LOOP)"; "0;JMP"]))
    (variables (after_symbols predefined_symbols ["(LOOP)"; "@LOOP"; "(LOOP)"; "0;JMP"])) "@LOOP"
  = Some (Some (InsA 1)) /\
  parse_line (labels (after_symbols predefined_symbols ["(R3)"; "@R3"]))
    (variables (after_symbols predefined_symbols ["(R3)"; "@R3"])) "@R3"
  = Some (Some (InsA 3)).
Proof. split; vm_compute; reflexivity. Qed.

(** C7.  The variable pass allocates 16, 17, 18, ... to the new symbols
    (non-numeric operands bound neither as label nor as predefined
    symbol) in order of first occurrence in the label-free lines; any
    other symbol, in particular one in the label table or in the
    seeded table, keeps the seeded binding and gets no address. *)
Theorem variables_first_occurrence (code : list string) :
  let st := after_symbols predefined_symbols code in
  let vars0 := (list_to_map predefined_symbols : gmap string pyval) in
  let uv := user_variables (labels st) vars0 (assembly_code st) in
  NoDup uv /\
  (forall i s, uv !! i = Some s -> variables st !! s = Some (PyInt (16 + N.of_nat i))) /\
  (forall s, s ∉ uv -> variables st !! s = vars0 !! s) /\
  (forall s, is_Some (labels st !! s) \/ is_Some (vars0 !! s) -> variables st !! s = vars0 !! s).
Proof.
  intros st vars0 uv.
  assert (Hnd : NoDup uv) by apply dedup_seen_NoDup.
  assert (Hout : forall s, s ∉ uv -> variables st !! s = vars0 !! s).
  { intros s Hs. unfold st. rewrite after_symbols_variables_lookup, index_of_not_elem;
      [reflexivity | exact Hs]. }
  split; [exact Hnd|]. split; [|split; [exact Hout|]].
  - intros i s Hi. unfold st. rewrite after_symbols_variables_lookup.
    fold st vars0 uv. by rewrite (index_of_lookup s uv i Hnd Hi).
  - intros s Hs. apply Hout. intros Hin.
    apply user_variables_elem in Hin as (_ & Hl & Hv).
    destruct Hs as [[n Hn]|[w Hw]]; congruence.
Qed.

(** C8.  A predefined symbol keeps its binding in the variable table at
    every step of the variable pass and after it; [@s] resolves to its
    predefined address; and its uses allocate nothing: the pass run
    without those lines builds the same table. *)
Theorem predefined_bindings_stable (code : list string) (s : string) (v : pyval) :
  (list_to_map predefined_symbols : gmap string pyval) !! s = Some v ->
  let st := after_symbols predefined_symbols code in
  (forall k, find_variables_loop (labels st) 16%N (take k (assembly_code st))
               (list_to_map predefined_symbols) !! s = Some v) /\
  variables st !! s = Some v /\
  (exists n, py_int v = Some n /\
     parse_line (labels st) (variables st) ("@" ++ s) = Some (Some (InsA n))) /\
  find_variables_loop (labels st) 16%N (filter (fun l => l <> "@" ++ s) (assembly_code st))
    (list_to_map predefined_symbols) = variables st.
Proof.
  intros Hs st.
  assert (Hv : variables st !! s = Some v).
  { unfold st. rewrite after_symbols_variables. by apply find_variables_loop_keep. }
  split; [intros k; by apply find_variables_loop_keep|]. split; [exact Hv|]. split.
  - destruct (predefined_symbols_values s v Hs) as [n Hn]. exists n. split; [exact Hn|].
    rewrite (parse_line_variable _ _ _ _ Hv), Hn. reflexivity.
  - unfold st. rewrite after_symbols_variables. by apply find_variables_loop_skip with v.
Qed.

Lemma predefined_bindings_stable_witness :
  (list_to_map predefined_symbols : gmap string pyval) !! "R3" = Some (PyStr "3") /\
  let st := after_symbols predefined_symbols ["(R3)"; "@x"; "@R3"; "@y"] in
  (forall k, find_variables_loop (labels st) 16%N (take k (assembly_code st))
               (list_to_map predefined_symbols) !! "R3" = Some (PyStr "3")) /\
  variables st !! "R3" = Some (PyStr "3") /\
  (exists n, py_int (PyStr "3") = Some n /\
     parse_line (labels st) (variables st) ("@" ++ "R3") = Some (Some (InsA n))) /\
  find_variables_loop (labels st) 16%N (filter (fun l => l <> "@" ++ "R3") (assembly_code st))
    (list_to_map predefined_symbols) = variables st.
Proof.
  assert (H : (list_to_map predefined_symbols : gmap string pyval) !! "R3" = Some (PyStr "3"))
    by (vm_compute; reflexivity).
  split; [exact H|]. exact (predefined_bindings_stable ["(R3)"; "@x"; "@R3"; "@y"] _ _ H).
Defined.

(** C9.  The output is a function of the input text alone: seeding the
    variable table in any order of the predefined entries gives the
    same printed text as the program does. *)
Theorem output_independent_of_seed_order (code : list string) (predef : list (string * pyval)) :
  predef ≡ₚ predefined_symbols ->
  (get_machine_code <$> Assembler_with predef code) = hack_output code.
Proof.
  intros Hp. unfold hack_output, Assembler.
  assert (Hnd : NoDup predef.*1) by (rewrite Hp; apply predefined_symbols_NoDup).
  unfold Assembler_with, after_symbols, initial_state.
  by rewrite (list_to_map_proper predef predefined_symbols Hnd Hp).
Qed.

Lemma output_independent_of_seed_order_witness :
  reverse predefined_symbols ≡ₚ predefined_symbols /\
  (get_machine_code <$> Assembler_with (reverse predefined_symbols) ["@R3"; "@x"; "D=M"])
  = hack_output ["@R3"; "@x"; "D=M"].
Proof.
  assert (H : reverse predefined_symbols ≡ₚ predefined_symbols) by apply reverse_Permutation.
  split; [exact H | exact (output_independent_of_seed_order _ _ H)].
Defined.

(** C10.  Every line starting with ['('] is a label declaration whose
    name is the line without its first and last character ([line[1:-1]],
    whether or not the last one is [')']); the label pass removes all
    such lines, so none of them reaches the parser. *)
Theorem label_lines_removed (st : Asm) (k : nat) (line : string) :
  assembly_code st !! k = Some line -> py_startswith "(" line = true ->
  is_Some (labels (find_labels st) !! py_slice line 1 (String.length line - 1)) /\
  assembly_code (find_labels st) = filter (fun l => is_label_line l = false) (assembly_code st) /\
  line ∉ assembly_code (find_variables (find_labels st)).
Proof.
  intros Hk Hl. split; [|split].
  - rewrite find_labels_labels. apply (find_labels_loop_declared _ _ _ _ _ line); [|exact Hl].
    by apply list_elem_of_lookup_2 with k.
  - apply find_labels_code.
  - unfold find_variables. simpl. rewrite find_labels_code, list_elem_of_filter.
    unfold is_label_line. rewrite Hl. intros [H _]. discriminate.
Qed.

Lemma label_lines_removed_witness :
  assembly_code (remove_unnecessary (initial_state predefined_symbols ["(LOOP"; "@LOOP"])) !! 0
    = Some "(LOOP" /\ py_startswith "(" "(LOOP" = true /\
  is_Some (labels (find_labels (remove_unnecessary (initial_state predefined_symbols ["(LOOP"; "@LOOP"])))
             !! py_slice "(LOOP" 1 (String.length "(LOOP" - 1)) /\
  py_slice "(LOOP" 1 (String.length "(LOOP" - 1) = "LOO" /\
  assembly_code (find_labels (remove_unnecessary (initial_state predefined_symbols ["(LOOP"; "@LOOP"])))
    = ["@LOOP"].
Proof.
  assert (H0 : assembly_code (remove_unnecessary (initial_state predefined_symbols ["(LOOP"; "@LOOP"])) !! 0
               = Some "(LOOP") by (vm_compute; reflexivity).
  destruct (label_lines_removed _ 0 "(LOOP" H0 eq_refl) as (Hs & Hc & _).
  split; [exact H0|]. split; [reflexivity|]. split; [exact Hs|]. split; [reflexivity|].
  rewrite Hc. vm_compute. reflexivity.
Defined.
